(** * Kismet [tcp_client_v2]: the non-blocking TCP client state machine

    A shallow embedding of [tcpclient2.cc].  The client owns five
    observable members ([host], [port], [cli_fd], [pending_connect],
    [connected]) plus two scratch members ([client_host], [client_sock]).
    Every method runs under [local_locker l(tcp_mutex)]; the model is
    sequential, so the (recursive) lock is the identity and is not
    represented.

    The client talks to two collaborators that are not part of the
    translated file:
    - the buffer handler ([buffer_handler_generic], an abstract C++
      interface), modelled as the type class [BufferHandler];
    - the socket layer of the operating system, modelled as the type
      class [Sockets].
    Every call that crosses one of these two boundaries, and every
    [_MSG_ERROR], is appended to a chronological [trace]. *)

From Stdlib Require Import ZArith Lia Bool.
From stdpp Require Import base numbers list strings gmap.

Local Open Scope Z_scope.

(** ** Platform constants (errno.h, fcntl.h; Linux values) *)

Definition EINTR : Z := 4.
Definition EAGAIN : Z := 11.
Definition EWOULDBLOCK : Z := 11.
Definition EINPROGRESS : Z := 115.
Definition O_NONBLOCK : Z := 2048.
Definition FD_CLOEXEC : Z := 1.

(** [size_t] on LP64: a value stored in a [size_t] is kept modulo 2^64. *)
Definition to_size_t (z : Z) : Z := z mod 2 ^ 64.

(** [htons] on a little-endian host: swap the two bytes of a 16-bit value. *)
Definition htons (x : Z) : Z :=
  let v := x mod 2 ^ 16 in
  Z.lor (Z.shiftl (Z.land v 255) 8) (Z.shiftr v 8).

(** ** Data model *)

Record hostent := Hostent {
  h_addrtype : Z;
  h_length : Z;
  h_addr_list : list (list Byte.byte)
}.

Record sockaddr_in := SockaddrIn {
  sin_family : Z;
  sin_addr : list Byte.byte;
  sin_port : Z
}.

(** The state of [memset(&client_sock, 0, sizeof(client_sock))]. *)
Definition sockaddr_zero : sockaddr_in := SockaddrIn 0 [] 0.

(** A message is kept as the format string of the source together with
    its arguments; [FmtStrerror e] stands for [kis_strerror_r(e)]. *)
Inductive fmt_arg :=
| FmtStr (s : string)
| FmtInt (n : Z)
| FmtStrerror (e : Z).

Record message := Message {
  msg_format : string;
  msg_args : list fmt_arg
}.

(** [msg.str()] of a [std::stringstream] nothing was written to. *)
Definition empty_message : message := Message EmptyString [].

Abbreviation fd_set := (gset Z).

Record tcp_client_v2 := TcpClient {
  host : string;
  port : Z;
  cli_fd : Z;
  pending_connect : bool;
  connected : bool;
  client_host : option hostent;
  client_sock : sockaddr_in
}.

(** The constructor: [pending_connect {false}, connected {false}, cli_fd {-1}]. *)
Definition tcp_client_v2_new : tcp_client_v2 :=
  TcpClient EmptyString 0 (-1) false false None sockaddr_zero.

Definition set_host (v : string) (c : tcp_client_v2) : tcp_client_v2 :=
  TcpClient v (port c) (cli_fd c) (pending_connect c) (connected c)
            (client_host c) (client_sock c).
Definition set_port (v : Z) (c : tcp_client_v2) : tcp_client_v2 :=
  TcpClient (host c) v (cli_fd c) (pending_connect c) (connected c)
            (client_host c) (client_sock c).
Definition set_cli_fd (v : Z) (c : tcp_client_v2) : tcp_client_v2 :=
  TcpClient (host c) (port c) v (pending_connect c) (connected c)
            (client_host c) (client_sock c).
Definition set_pending_connect (v : bool) (c : tcp_client_v2) : tcp_client_v2 :=
  TcpClient (host c) (port c) (cli_fd c) v (connected c)
            (client_host c) (client_sock c).
Definition set_connected (v : bool) (c : tcp_client_v2) : tcp_client_v2 :=
  TcpClient (host c) (port c) (cli_fd c) (pending_connect c) v
            (client_host c) (client_sock c).
Definition set_client_host (v : option hostent) (c : tcp_client_v2) : tcp_client_v2 :=
  TcpClient (host c) (port c) (cli_fd c) (pending_connect c) (connected c)
            v (client_sock c).
Definition set_client_sock (v : sockaddr_in) (c : tcp_client_v2) : tcp_client_v2 :=
  TcpClient (host c) (port c) (cli_fd c) (pending_connect c) (connected c)
            (client_host c) v.

(** ** Collaborators *)

(** The part of [buffer_handler_generic] the client calls.  Queries are
    pure in the handler state; the other operations return the new state.
    A zero-copy region is represented by its length (ingress) or by its
    bytes (egress). *)
Class BufferHandler (H : Type) := {
  get_write_buffer_used : H -> Z;
  get_read_buffer_available : H -> Z;
  trigger_read_callback : Z -> H -> H;
  zero_copy_reserve_read_buffer_data : Z -> H -> Z * H;
  commit_read_buffer_data : Z -> H -> bool * H;
  zero_copy_peek_write_buffer_data : Z -> H -> list Byte.byte * H;
  peek_free_write_buffer_data : H -> H;
  consume_write_buffer_data : Z -> H -> H;
  buffer_error : message -> H -> H
}.

(** The system calls the client issues.  A call that the source follows
    by a look at [errno] returns the pair (return value, errno). *)
Class Sockets (W : Type) := {
  sys_gethostbyname : string -> W -> option hostent * W;
  sys_socket : W -> (Z * Z) * W;
  sys_fcntl_getfl : Z -> W -> Z * W;
  sys_fcntl_setfl : Z -> Z -> W -> W;
  sys_connect : Z -> sockaddr_in -> W -> (Z * Z) * W;
  sys_getsockopt_so_error : Z -> W -> (Z * Z) * W;
  sys_recv : Z -> Z -> W -> (Z * Z) * W;
  sys_send : Z -> list Byte.byte -> W -> (Z * Z) * W;
  sys_close : Z -> W -> W
}.

(** Calls observed at the two boundaries, with their results. *)
Inductive event :=
| EvMsgError (m : message)
| EvGethostbyname (name : string) (found : bool)
| EvSocket (ret : Z)
| EvFcntlGetfl (fd : Z)
| EvFcntlSetfl (fd flags : Z)
| EvConnect (fd : Z) (addr : sockaddr_in) (ret errno : Z)
| EvGetsockopt (fd r e : Z)
| EvRecv (fd len ret errno : Z)
| EvSend (fd : Z) (data : list Byte.byte) (ret errno : Z)
| EvClose (fd : Z)
| EvBufferError (m : message)
| EvTriggerReadCallback
| EvReserve (req len : Z)
| EvCommit (n : Z) (accepted : bool)
| EvPeek (req : Z) (data : list Byte.byte)
| EvPeekFree
| EvConsume (n : Z).

(** How a block of the source hands control on: it either falls through
    to the statement after it or executes [return r]. *)
Inductive flow :=
| Fallthrough
| Returned (r : Z).

Section Client.
Context {H W : Type} `{BH : BufferHandler H} `{OS : Sockets W}.

Record world := World {
  self : tcp_client_v2;
  handler : H;
  sys : W;
  trace : list event
}.

(** *** A state monad over [world] *)

Definition M (A : Type) : Type := world -> A * world.

Definition ret {A} (a : A) : M A := fun w => (a, w).
Definition bind {A B} (m : M A) (k : A -> M B) : M B :=
  fun w => let '(a, w') := m w in k a w'.

Notation "x <- m ;; k" := (bind m (fun x => k))
  (at level 100, m at next level, right associativity).
Notation "m ;;; k" := (bind m (fun _ => k))
  (at level 100, right associativity).

Definition get_self : M tcp_client_v2 := fun w => (self w, w).
Definition update (f : tcp_client_v2 -> tcp_client_v2) : M unit :=
  fun w => (tt, World (f (self w)) (handler w) (sys w) (trace w)).
Definition emit (e : event) : M unit :=
  fun w => (tt, World (self w) (handler w) (sys w) (trace w ++ [e])).
Definition ask_handler {A} (q : H -> A) : M A := fun w => (q (handler w), w).
Definition run_handler {A} (op : H -> A * H) : M A :=
  fun w => let '(a, h) := op (handler w) in
           (a, World (self w) h (sys w) (trace w)).
Definition run_sys {A} (op : W -> A * W) : M A :=
  fun w => let '(a, s) := op (sys w) in
           (a, World (self w) (handler w) s (trace w)).

(** *** Logged boundary calls *)

Definition MSG_ERROR (m : message) : M unit := emit (EvMsgError m).

Definition gethostbyname (name : string) : M (option hostent) :=
  r <- run_sys (sys_gethostbyname name);;
  emit (EvGethostbyname name (bool_decide (r <> None)));;;
  ret r.
Definition socket : M (Z * Z) :=
  r <- run_sys sys_socket;;
  emit (EvSocket (fst r));;;
  ret r.
Definition fcntl_getfl (fd : Z) : M Z :=
  r <- run_sys (sys_fcntl_getfl fd);;
  emit (EvFcntlGetfl fd);;;
  ret r.
Definition fcntl_setfl (fd flags : Z) : M unit :=
  run_sys (fun s => (tt, sys_fcntl_setfl fd flags s));;;
  emit (EvFcntlSetfl fd flags).
Definition sock_connect (fd : Z) (addr : sockaddr_in) : M (Z * Z) :=
  r <- run_sys (sys_connect fd addr);;
  emit (EvConnect fd addr (fst r) (snd r));;;
  ret r.
Definition getsockopt_so_error (fd : Z) : M (Z * Z) :=
  r <- run_sys (sys_getsockopt_so_error fd);;
  emit (EvGetsockopt fd (fst r) (snd r));;;
  ret r.
Definition recv (fd len : Z) : M (Z * Z) :=
  r <- run_sys (sys_recv fd len);;
  emit (EvRecv fd len (fst r) (snd r));;;
  ret r.
Definition send (fd : Z) (data : list Byte.byte) : M (Z * Z) :=
  r <- run_sys (sys_send fd data);;
  emit (EvSend fd data (fst r) (snd r));;;
  ret r.
Definition close (fd : Z) : M unit :=
  run_sys (fun s => (tt, sys_close fd s));;;
  emit (EvClose fd).

Definition h_buffer_error (m : message) : M unit :=
  run_handler (fun h => (tt, buffer_error m h));;;
  emit (EvBufferError m).
Definition h_trigger_read_callback (n : Z) : M unit :=
  run_handler (fun h => (tt, trigger_read_callback n h));;;
  emit EvTriggerReadCallback.
Definition h_reserve (req : Z) : M Z :=
  r <- run_handler (zero_copy_reserve_read_buffer_data req);;
  let len := to_size_t r in
  emit (EvReserve req len);;;
  ret len.
Definition h_commit (n : Z) : M bool :=
  r <- run_handler (commit_read_buffer_data n);;
  emit (EvCommit n r);;;
  ret r.
Definition h_peek (req : Z) : M (list Byte.byte) :=
  r <- run_handler (zero_copy_peek_write_buffer_data req);;
  emit (EvPeek req r);;;
  ret r.
Definition h_peek_free : M unit :=
  run_handler (fun h => (tt, peek_free_write_buffer_data h));;;
  emit EvPeekFree.
Definition h_consume (n : Z) : M unit :=
  run_handler (fun h => (tt, consume_write_buffer_data n h));;;
  emit (EvConsume n).

(** [errno == EINTR || errno == EAGAIN || errno == EWOULDBLOCK] *)
Definition retryable (errno : Z) : bool :=
  (errno =? EINTR) || (errno =? EAGAIN) || (errno =? EWOULDBLOCK).

(** *** The messages of the source *)

Definition msg_already_connected (in_host : string) (in_port : Z)
           (c : tcp_client_v2) : message :=
  Message "TCP client asked to connect to {}:{} but is already connected to {}:{}"
          [FmtStr in_host; FmtInt in_port; FmtStr (host c); FmtInt (port c)].
Definition msg_resolve (in_host : string) : message :=
  Message "Could not resolve hostname {}" [FmtStr in_host].
Definition msg_connect_failed (h : string) (p e : Z) : message :=
  Message "Could not connect to TCP server {}:{} ({} / errno {})"
          [FmtStr h; FmtInt p; FmtStrerror e; FmtInt e].
Definition msg_read_error (c : tcp_client_v2) (e : Z) : message :=
  Message "TCP client error reading from {}:{} - {} (errno {})"
          [FmtStr (host c); FmtInt (port c); FmtStrerror e; FmtInt e].
Definition msg_read_closed (c : tcp_client_v2) : message :=
  Message "TCP client closing connection to {}:{}, connection closed by remote"
          [FmtStr (host c); FmtInt (port c)].
Definition msg_write_error (c : tcp_client_v2) (e : Z) : message :=
  Message "TCP client error writing to {}:{} - {} (errno {})"
          [FmtStr (host c); FmtInt (port c); FmtStrerror e; FmtInt e].
Definition msg_write_closed (c : tcp_client_v2) : message :=
  Message "TCP client connection to {}:{} closed by remote"
          [FmtStr (host c); FmtInt (port c)].

(** *** [tcp_client_v2::disconnect] *)

Definition disconnect : M unit :=
  c <- get_self;;
  (if pending_connect c || connected c then
     (if 0 <=? cli_fd c then close (cli_fd c) else ret tt);;;
     update (set_cli_fd (-1))
   else ret tt);;;
  update (set_cli_fd (-1));;;
  update (set_pending_connect false);;;
  update (set_connected false).

(** *** [tcp_client_v2::get_connected] *)

Definition get_connected : M bool :=
  c <- get_self;;
  if connected c || pending_connect c then ret true else ret false.

(** *** [tcp_client_v2::connect] *)

Definition connect (in_host : string) (in_port : Z) : M Z :=
  c <- get_self;;
  if connected c then
    MSG_ERROR (msg_already_connected in_host in_port c);;;
    ret (-1)
  else
    he <- gethostbyname in_host;;
    update (set_client_host he);;;
    match he with
    | None =>
        MSG_ERROR (msg_resolve in_host);;;
        ret (-1)
    | Some ent =>
        update (set_host in_host);;;
        update (set_port in_port);;;
        update (set_client_sock sockaddr_zero);;;
        let addr :=
          SockaddrIn (h_addrtype ent)
                     (take (Z.to_nat (h_length ent)) (default [] (head (h_addr_list ent))))
                     (htons in_port) in
        update (set_client_sock addr);;;
        re <- socket;;
        let '(fd, errno) := re in
        update (set_cli_fd fd);;;
        if fd <? 0 then
          MSG_ERROR (msg_connect_failed in_host in_port errno);;;
          ret (-1)
        else
          fl <- fcntl_getfl fd;;
          fcntl_setfl fd (Z.lor (Z.lor fl O_NONBLOCK) FD_CLOEXEC);;;
          re <- sock_connect fd addr;;
          let '(r, errno) := re in
          if r <? 0 then
            if errno =? EINPROGRESS then
              update (set_pending_connect true);;;
              ret 0
            else
              MSG_ERROR (msg_connect_failed in_host in_port errno);;;
              c1 <- get_self;;
              (if 0 <=? cli_fd c1 then close (cli_fd c1) else ret tt);;;
              update (set_cli_fd (-1));;;
              update (set_connected false);;;
              update (set_pending_connect false);;;
              h_buffer_error empty_message;;;
              ret (-1)
          else
            update (set_connected true);;;
            update (set_pending_connect false);;;
            ret 0
    end.

(** *** [tcp_client_v2::pollable_merge_set]

    [FD_SET] writes into the caller's sets, so the sets are returned
    next to the result. *)

Definition pollable_merge_set (in_max_fd : Z) (out_rset out_wset : fd_set)
  : M (Z * fd_set * fd_set) :=
  c <- get_self;;
  if pending_connect c then
    let out_wset := {[cli_fd c]} ∪ out_wset in
    if in_max_fd <? cli_fd c then ret (cli_fd c, out_rset, out_wset)
    else ret (in_max_fd, out_rset, out_wset)
  else if negb (connected c) then
    ret (in_max_fd, out_rset, out_wset)
  else
    used <- ask_handler get_write_buffer_used;;
    let out_wset := if negb (used =? 0) then {[cli_fd c]} ∪ out_wset else out_wset in
    let out_rset := {[cli_fd c]} ∪ out_rset in
    if in_max_fd <? cli_fd c then ret (cli_fd c, out_rset, out_wset)
    else ret (in_max_fd, out_rset, out_wset).

(** *** [tcp_client_v2::pollable_poll] *)

Definition FD_ISSET (fd : Z) (s : fd_set) : bool := bool_decide (fd ∈ s).

(** Lines 162-196: the [if (pending_connect)] block; every path of it
    returns. *)
Definition poll_pending (in_wset : fd_set) : M Z :=
  c <- get_self;;
  if FD_ISSET (cli_fd c) in_wset then
    re <- getsockopt_so_error (cli_fd c);;
    let '(r, e) := re in
    if (r <? 0) || negb (e =? 0) then
      h_buffer_error (msg_connect_failed (host c) (port c) e);;;
      (if 0 <=? cli_fd c then close (cli_fd c) else ret tt);;;
      update (set_cli_fd (-1));;;
      update (set_connected false);;;
      update (set_pending_connect false);;;
      ret 0
    else
      update (set_connected true);;;
      update (set_pending_connect false);;;
      ret 0
  else ret 0.

(** Lines 209-260: the [while] loop.  [fuel] bounds the number of times
    the loop condition is evaluated; [None] means the bound was hit. *)
Fixpoint read_loop (fuel : nat) : M (option flow) :=
  match fuel with
  | O => ret None
  | S fuel' =>
      c <- get_self;;
      avail <- ask_handler get_read_buffer_available;;
      if connected c && (0 <? avail) then
        req <- ask_handler get_read_buffer_available;;
        len <- h_reserve req;;
        if len <=? 0 then
          h_commit 0;;;
          ret (Some Fallthrough)
        else
          re <- recv (cli_fd c) len;;
          let '(r, errno) := re in
          if r <? 0 then
            if retryable errno then
              h_commit 0;;;
              ret (Some Fallthrough)
            else
              h_commit 0;;;
              h_buffer_error (msg_read_error c errno);;;
              disconnect;;;
              ret (Some (Returned 0))
          else if r =? 0 then
            h_commit 0;;;
            h_buffer_error (msg_read_closed c);;;
            disconnect;;;
            ret (Some (Returned 0))
          else
            iret <- h_commit r;;
            if negb iret then
              disconnect;;;
              ret (Some (Returned 0))
            else read_loop fuel'
      else ret (Some Fallthrough)
  end.

(** Lines 201-261: the [if (FD_ISSET(cli_fd, &in_rset))] block. *)
Definition poll_read (fuel : nat) (in_rset : fd_set) : M (option flow) :=
  c <- get_self;;
  if FD_ISSET (cli_fd c) in_rset then
    avail <- ask_handler get_read_buffer_available;;
    (if avail =? 0 then h_trigger_read_callback 0 else ret tt);;;
    read_loop fuel
  else ret (Some Fallthrough).

(** Lines 263-298: the write block and the final [return 0]. *)
Definition poll_write (in_wset : fd_set) : M Z :=
  c <- get_self;;
  used <- ask_handler get_write_buffer_used;;
  if connected c && FD_ISSET (cli_fd c) in_wset && negb (used =? 0) then
    req <- ask_handler get_write_buffer_used;;
    buf <- h_peek req;;
    re <- send (cli_fd c) buf;;
    let '(r, errno) := re in
    if r <? 0 then
      if retryable errno then
        h_peek_free;;;
        ret 0
      else
        h_peek_free;;;
        h_buffer_error (msg_write_error c errno);;;
        disconnect;;;
        ret 0
    else if r =? 0 then
      h_peek_free;;;
      h_buffer_error (msg_write_closed c);;;
      disconnect;;;
      ret 0
    else
      h_peek_free;;;
      h_consume r;;;
      ret 0
  else ret 0.

Definition pollable_poll (fuel : nat) (in_rset in_wset : fd_set) : M (option Z) :=
  c <- get_self;;
  if pending_connect c then
    r <- poll_pending in_wset;;
    ret (Some r)
  else if negb (connected c) then
    ret (Some 0)
  else
    f <- poll_read fuel in_rset;;
    match f with
    | None => ret None
    | Some (Returned r) => ret (Some r)
    | Some Fallthrough =>
        r <- poll_write in_wset;;
        ret (Some r)
    end.

End Client.


Arguments world : clear implicits.
Arguments World {H W}.
Arguments disconnect : simpl never.

(** ** Concrete collaborators *)

(** Modelled from the spec: the Byte Ring behind the handler interface
    ([buffer_handler] and [ringbuf2] are not among the translated
    sources).  Section 3 of the spec: two independent bounded buffers,
    each tracking capacity and bytes used; section 6: reserve-ingress
    yields a region no larger than asked for and no larger than the free
    space, commit-ingress answers whether the bytes were accepted,
    peek-egress yields the pending bytes, advance-egress drops bytes from
    the front, report-error pushes a message, notify-ring-full is a hint
    to the consumer.  The consumer does not drain the ring while the
    client is running. *)
Record ring := Ring {
  ingress_capacity : Z;
  ingress_used : Z;
  egress : list Byte.byte;
  error_channel : list message;
  full_hints : nat
}.

Definition ring_free (r : ring) : Z := ingress_capacity r - ingress_used r.

Definition ring_reserve (req : Z) (r : ring) : Z * ring :=
  (Z.max 0 (Z.min req (ring_free r)), r).

Definition ring_commit (n : Z) (r : ring) : bool * ring :=
  if (0 <=? n) && (n <=? ring_free r) then
    (true, Ring (ingress_capacity r) (ingress_used r + n) (egress r)
                (error_channel r) (full_hints r))
  else (false, r).

Definition ring_consume (n : Z) (r : ring) : ring :=
  Ring (ingress_capacity r) (ingress_used r) (drop (Z.to_nat n) (egress r))
       (error_channel r) (full_hints r).

Definition ring_error (m : message) (r : ring) : ring :=
  Ring (ingress_capacity r) (ingress_used r) (egress r)
       (error_channel r ++ [m]) (full_hints r).

Definition ring_hint (r : ring) : ring :=
  Ring (ingress_capacity r) (ingress_used r) (egress r)
       (error_channel r) (S (full_hints r)).

#[export] Instance ring_handler : BufferHandler ring := {
  get_write_buffer_used r := Z.of_nat (length (egress r));
  get_read_buffer_available := ring_free;
  trigger_read_callback _ := ring_hint;
  zero_copy_reserve_read_buffer_data := ring_reserve;
  commit_read_buffer_data := ring_commit;
  zero_copy_peek_write_buffer_data req r := (take (Z.to_nat req) (egress r), r);
  peek_free_write_buffer_data r := r;
  consume_write_buffer_data := ring_consume;
  buffer_error := ring_error
}.

(** A handler that has lost its ingress buffer: one byte of space is
    advertised and reserved, and every commit is refused.  It exercises
    the refused-commit path of the read loop. *)
Record refusing := Refusing { refused_commits : nat }.

#[export] Instance refusing_handler : BufferHandler refusing := {
  get_write_buffer_used _ := 1;
  get_read_buffer_available _ := 1;
  trigger_read_callback _ r := r;
  zero_copy_reserve_read_buffer_data req r := (req, r);
  commit_read_buffer_data _ r := (false, Refusing (S (refused_commits r)));
  zero_copy_peek_write_buffer_data _ r := ([], r);
  peek_free_write_buffer_data r := r;
  consume_write_buffer_data _ r := r;
  buffer_error _ r := r
}.

(** A scripted socket layer: the state is the list of (return value,
    errno) pairs still to be handed out, one per call that reports a
    result; an exhausted script answers (-1, EAGAIN).  [recv] and [send]
    never report more bytes than they were asked to move. *)
Definition script := list (Z * Z).

Definition next_reply (s : script) : (Z * Z) * script :=
  match s with
  | [] => ((-1, EAGAIN), [])
  | r :: tl => (r, tl)
  end.

Definition loopback_ent : hostent :=
  Hostent 2 4 [[Byte.x7f; Byte.x00; Byte.x00; Byte.x01]].

#[export] Instance script_sockets : Sockets script := {
  sys_gethostbyname _ s :=
    let '((r, _), s') := next_reply s in
    (if r <? 0 then None else Some loopback_ent, s');
  sys_socket := next_reply;
  sys_fcntl_getfl _ s := (0, s);
  sys_fcntl_setfl _ _ s := s;
  sys_connect _ _ := next_reply;
  sys_getsockopt_so_error _ := next_reply;
  sys_recv _ len s :=
    let '((r, e), s') := next_reply s in ((Z.min r len, e), s');
  sys_send _ data s :=
    let '((r, e), s') := next_reply s in ((Z.min r (Z.of_nat (length data)), e), s');
  sys_close _ s := s
}.

(** A handler whose consumer takes every committed chunk out of the
    ingress buffer before the commit returns: the buffer is bounded, but
    its free space is the whole capacity again after each accepted
    commit.  [delivered] counts the bytes handed to the consumer. *)
Record drained := Drained { drained_capacity : Z; delivered : Z }.

#[export] Instance drained_handler : BufferHandler drained := {
  get_write_buffer_used _ := 0;
  get_read_buffer_available := drained_capacity;
  trigger_read_callback _ d := d;
  zero_copy_reserve_read_buffer_data req d :=
    (Z.max 0 (Z.min req (drained_capacity d)), d);
  commit_read_buffer_data n d :=
    if (0 <=? n) && (n <=? drained_capacity d)
    then (true, Drained (drained_capacity d) (delivered d + n))
    else (false, d);
  zero_copy_peek_write_buffer_data _ d := ([], d);
  peek_free_write_buffer_data d := d;
  consume_write_buffer_data _ d := d;
  buffer_error _ d := d
}.

(** A socket layer whose peer never stops sending: every [recv] finds one
    byte, and never more than it was asked for.  The state counts the
    bytes handed out. *)
Record stream := Stream { received : Z }.

#[export] Instance stream_sockets : Sockets stream := {
  sys_gethostbyname _ s := (Some loopback_ent, s);
  sys_socket s := ((5, 0), s);
  sys_fcntl_getfl _ s := (0, s);
  sys_fcntl_setfl _ _ s := s;
  sys_connect _ _ s := ((0, 0), s);
  sys_getsockopt_so_error _ s := ((0, 0), s);
  sys_recv _ len s := ((Z.min 1 len, 0), Stream (received s + Z.min 1 len));
  sys_send _ data s := ((Z.of_nat (length data), 0), s);
  sys_close _ s := s
}.

(** ** Observations on traces *)

(** Sum of the lengths handed to [commit_read_buffer_data]. *)
Fixpoint committed_total (evs : list event) : Z :=
  match evs with
  | [] => 0
  | EvCommit n _ :: tl => n + committed_total tl
  | _ :: tl => committed_total tl
  end.

(** Sum of the positive return values of [recv]. *)
Fixpoint positive_recv_total (evs : list event) : Z :=
  match evs with
  | [] => 0
  | EvRecv _ _ r _ :: tl => (if 0 <? r then r else 0) + positive_recv_total tl
  | _ :: tl => positive_recv_total tl
  end.

(** Every commit is at most [cap], the length of the reservation obtained
    last before it. *)
Fixpoint commits_within_reservation (cap : Z) (evs : list event) : bool :=
  match evs with
  | [] => true
  | EvReserve _ len :: tl => commits_within_reservation len tl
  | EvCommit n _ :: tl => (n <=? cap) && commits_within_reservation cap tl
  | _ :: tl => commits_within_reservation cap tl
  end.

(** The bytes that left through [send], in order: a send that returned
    [r > 0] moved the first [r] bytes it was given. *)
Fixpoint transmitted (evs : list event) : list Byte.byte :=
  match evs with
  | [] => []
  | EvSend _ data r _ :: tl =>
      (if 0 <? r then take (Z.to_nat r) data else []) ++ transmitted tl
  | _ :: tl => transmitted tl
  end.

Definition is_buffer_error (e : event) : bool :=
  match e with EvBufferError _ => true | _ => false end.
Definition is_send (e : event) : bool :=
  match e with EvSend _ _ _ _ => true | _ => false end.
Definition is_close (e : event) : bool :=
  match e with EvClose _ => true | _ => false end.
Definition is_getsockopt (e : event) : bool :=
  match e with EvGetsockopt _ _ _ => true | _ => false end.
Definition is_commit (e : event) : bool :=
  match e with EvCommit _ _ => true | _ => false end.

(** What [disconnect] emits for a client that is connecting or connected. *)
Definition close_events (c : tcp_client_v2) : list event :=
  if 0 <=? cli_fd c then [EvClose (cli_fd c)] else [].

(** The members after [disconnect]. *)
Definition disconnected (c : tcp_client_v2) : tcp_client_v2 :=
  set_connected false (set_pending_connect false (set_cli_fd (-1) c)).

(** Why the read loop stopped. *)
Inductive stop :=
| StopCondition
| StopZeroReservation
| StopWouldBlock
| StopReadError
| StopRemoteClosed
| StopCommitRefused
| StopFuel.

Definition flow_of_stop (s : stop) : option flow :=
  match s with
  | StopCondition | StopZeroReservation | StopWouldBlock => Some Fallthrough
  | StopReadError | StopRemoteClosed | StopCommitRefused => Some (Returned 0)
  | StopFuel => None
  end.

(** The traces of the read loop of a connected client [c]: any number of
    rounds (reserve, positive recv, accepted commit) followed by one
    closing round that tells why the loop stopped. *)
Inductive loop_run (c : tcp_client_v2) : list event -> stop -> Prop :=
| run_fuel : loop_run c [] StopFuel
| run_condition : loop_run c [] StopCondition
| run_zero req acc :
    loop_run c [EvReserve req 0; EvCommit 0 acc] StopZeroReservation
| run_would_block req len r errno acc :
    0 < len -> r < 0 -> retryable errno = true ->
    loop_run c [EvReserve req len; EvRecv (cli_fd c) len r errno; EvCommit 0 acc]
             StopWouldBlock
| run_read_error req len r errno acc :
    0 < len -> r < 0 -> retryable errno = false ->
    loop_run c ([EvReserve req len; EvRecv (cli_fd c) len r errno; EvCommit 0 acc;
                 EvBufferError (msg_read_error c errno)] ++ close_events c)
             StopReadError
| run_remote_closed req len errno acc :
    0 < len ->
    loop_run c ([EvReserve req len; EvRecv (cli_fd c) len 0 errno; EvCommit 0 acc;
                 EvBufferError (msg_read_closed c)] ++ close_events c)
             StopRemoteClosed
| run_refused req len r errno :
    0 < len -> 0 < r ->
    loop_run c ([EvReserve req len; EvRecv (cli_fd c) len r errno; EvCommit r false]
                  ++ close_events c)
             StopCommitRefused
| run_more req len r errno tl s :
    0 < len -> 0 < r ->
    loop_run c tl s ->
    loop_run c (EvReserve req len :: EvRecv (cli_fd c) len r errno
                  :: EvCommit r true :: tl) s.


Section Contracts.
Context {H W : Type} `{BH : BufferHandler H} `{OS : Sockets W}.

(** POSIX: [recv(fd, buf, len, flags)] returns at most [len]. *)
Definition recv_within_request : Prop :=
  forall (fd len : Z) (s : W), fst (fst (sys_recv fd len s)) <= len.

(** A bounded ring: an accepted commit of [n > 0] bytes into a region
    reserved from [h] leaves less free ingress space than [h] had. *)
Definition commit_consumes_space : Prop :=
  forall (h h1 h2 : H) (req r n : Z),
    zero_copy_reserve_read_buffer_data req h = (r, h1) ->
    0 < n ->
    commit_read_buffer_data n h1 = (true, h2) ->
    get_read_buffer_available h2 < get_read_buffer_available h.

(** An observation of the handler that none of the operations of the
    read path ([trigger_read_callback], reserve, commit, [buffer_error])
    changes. *)
Definition ingress_frame {A : Type} (obs : H -> A) : Prop :=
  (forall n h, obs (trigger_read_callback n h) = obs h) /\
  (forall req h, obs (snd (zero_copy_reserve_read_buffer_data req h)) = obs h) /\
  (forall n h, obs (snd (commit_read_buffer_data n h)) = obs h) /\
  (forall m h, obs (buffer_error m h) = obs h).

End Contracts.

(** A [recv] event that respects the length it was given. *)
Definition recv_bounded (e : event) : Prop :=
  match e with
  | EvRecv _ len r _ => r <= len
  | _ => True
  end.

(** A transport failure as the client observes it: a failed or non-zero
    [SO_ERROR] query, a [connect] that failed for another reason than
    [EINPROGRESS], a [recv] or [send] that returned zero or failed with a
    non-retryable [errno]. *)
Definition is_transport_failure (e : event) : bool :=
  match e with
  | EvGetsockopt _ r e => (r <? 0) || negb (e =? 0)
  | EvConnect _ _ r errno => (r <? 0) && negb (errno =? EINPROGRESS)
  | EvRecv _ _ r errno => (r =? 0) || ((r <? 0) && negb (retryable errno))
  | EvSend _ _ r errno => (r =? 0) || ((r <? 0) && negb (retryable errno))
  | _ => false
  end.

(** Every transport failure in the trace is followed by a [buffer_error]. *)
Fixpoint failures_reported (evs : list event) : bool :=
  match evs with
  | [] => true
  | e :: tl =>
      (if is_transport_failure e then existsb is_buffer_error tl else true)
      && failures_reported tl
  end.

(** Events that leave no mark on the peer or on the error channel: no
    [buffer_error], no [send], no [close], no refused commit. *)
Definition quiet (e : event) : bool :=
  match e with
  | EvBufferError _ | EvSend _ _ _ _ | EvClose _ | EvCommit _ false => false
  | _ => true
  end.

(** The events the write block (and the [disconnect] it may end in) can
    emit. *)
Definition is_write_phase_event (e : event) : bool :=
  match e with
  | EvPeek _ _ | EvSend _ _ _ _ | EvPeekFree | EvBufferError _
  | EvClose _ | EvConsume _ => true
  | _ => false
  end.

(** Every reservation of length zero is followed by a commit of zero
    bytes, and that commit is the last event. *)
Fixpoint zero_reservation_breaks (evs : list event) : bool :=
  match evs with
  | [] => true
  | EvReserve _ len :: tl =>
      if len <=? 0 then
        match tl with
        | [EvCommit 0 _] => true
        | _ => false
        end
      else zero_reservation_breaks tl
  | _ :: tl => zero_reservation_breaks tl
  end.

(** The two failures [connect] meets before it has a socket: the name
    did not resolve, or [socket] returned a negative value. *)
Definition is_early_failure (e : event) : bool :=
  match e with
  | EvGethostbyname _ found => negb found
  | EvSocket fd => fd <? 0
  | _ => false
  end.

(** ** Further observations on traces and clients *)

(** [~tcp_client_v2]: the destructor is a call of [disconnect]. *)
Definition tcp_client_v2_destroy {H W : Type} `{OS : Sockets W} : M (H := H) (W := W) unit :=
  disconnect.

(** The client holds a connection or waits for one (what [get_connected]
    reports). *)
Definition active (c : tcp_client_v2) : bool :=
  connected c || pending_connect c.

(** How often an event of some kind occurs. *)
Fixpoint count_events (p : event -> bool) (evs : list event) : nat :=
  match evs with
  | [] => 0%nat
  | e :: tl => ((if p e then 1 else 0) + count_events p tl)%nat
  end.

(** A reservation is never left open: with [open] telling whether a
    reservation is outstanding, every reserve finds none outstanding,
    every commit finds one, and none is outstanding at the end. *)
Fixpoint reservations_committed (open : bool) (evs : list event) : bool :=
  match evs with
  | [] => negb open
  | EvReserve _ _ :: tl => negb open && reservations_committed true tl
  | EvCommit _ _ :: tl => open && reservations_committed false tl
  | _ :: tl => reservations_committed open tl
  end.

(** Handler and socket calls of the read side and of the write side. *)
Definition is_ingress_event (e : event) : bool :=
  match e with
  | EvTriggerReadCallback | EvReserve _ _ | EvRecv _ _ _ _ | EvCommit _ _ => true
  | _ => false
  end.
Definition is_egress_event (e : event) : bool :=
  match e with
  | EvPeek _ _ | EvSend _ _ _ _ | EvPeekFree | EvConsume _ => true
  | _ => false
  end.

(** [socket] returning the descriptor [fd], and [close] of [fd]. *)
Definition is_socket_of (fd : Z) (e : event) : bool :=
  match e with EvSocket r => r =? fd | _ => false end.
Definition is_close_of (fd : Z) (e : event) : bool :=
  match e with EvClose r => r =? fd | _ => false end.

(** The descriptor a system call was made on, if it was made on one. *)
Definition event_fd (e : event) : option Z :=
  match e with
  | EvFcntlGetfl fd | EvFcntlSetfl fd _ | EvConnect fd _ _ _
  | EvGetsockopt fd _ _ | EvRecv fd _ _ _ | EvSend fd _ _ _ | EvClose fd => Some fd
  | _ => None
  end.

(** Every system call of the trace that names a descriptor names [fd]. *)
Definition only_descriptor (fd : Z) (evs : list event) : bool :=
  forallb (fun e => match event_fd e with
                    | Some x => x =? fd
                    | None => true
                    end) evs.

(** The two invariants of the members: the flags exclude each other, and
    the descriptor is valid exactly when one of them is set. *)
Definition flags_exclusive (c : tcp_client_v2) : Prop :=
  pending_connect c && connected c = false.
Definition descriptor_matches_state (c : tcp_client_v2) : Prop :=
  active c = (0 <=? cli_fd c).

(** Every descriptor in the sets is at most [max_fd]: what the caller of
    [select] relies on. *)
Definition select_bound (max_fd : Z) (rset wset : fd_set) : Prop :=
  forall fd, fd ∈ rset ∪ wset -> fd <= max_fd.

(** ** Concrete worlds *)

Definition ring0 : ring := Ring 9000 0 [] [] 0.

Definition three_bytes : list Byte.byte := [Byte.x24; Byte.x47; Byte.x50].

(** A client fresh from its constructor. *)
Definition closed_world (s : script) : world ring script :=
  World tcp_client_v2_new ring0 s [].

(** A client whose [connect] to gps-a:2947 is in progress on descriptor 5. *)
Definition connecting_world (s : script) : world ring script :=
  World (TcpClient "gps-a" 2947 5 true false None sockaddr_zero) ring0 s [].

(** A client connected to gps-a:2947 on descriptor 5. *)
Definition connected_world (r : ring) (s : script) : world ring script :=
  World (TcpClient "gps-a" 2947 5 false true None sockaddr_zero) r s [].

(** The same client on a handler that refuses every commit. *)
Definition refusing_world (s : script) : world refusing script :=
  World (TcpClient "gps-a" 2947 5 false true None sockaddr_zero) (Refusing 0) s [].

(** The same client on a drained buffer of 9000 bytes, with a peer that
    never stops sending. *)
Definition drained_world : world drained stream :=
  World (TcpClient "gps-a" 2947 5 false true None sockaddr_zero)
        (Drained 9000 0) (Stream 0) [].

(** * Properties *)

(** Unfold the monad and the logged boundary calls. *)
Ltac unfold_monad :=
  cbv beta iota zeta delta
    [bind ret get_self update emit ask_handler run_handler run_sys
     MSG_ERROR gethostbyname socket fcntl_getfl fcntl_setfl sock_connect
     getsockopt_so_error recv send close h_buffer_error
     h_trigger_read_callback h_reserve h_commit h_peek h_peek_free
     h_consume] in *.

Section ClientProperties.
Context {H W : Type} `{BH : BufferHandler H} `{OS : Sockets W}.

Implicit Types (w : world H W) (c : tcp_client_v2).

Lemma disconnect_eq w :
  disconnect w =
  (tt, World (disconnected (self w)) (handler w)
             (if (pending_connect (self w) || connected (self w)) && (0 <=? cli_fd (self w))
              then sys_close (cli_fd (self w)) (sys w) else sys w)
             (trace w ++ (if pending_connect (self w) || connected (self w)
                          then close_events (self w) else []))).
Proof.
  destruct w as [[h p fd pc cn ch cs] hd s t].
  unfold disconnect, close_events, disconnected. unfold_monad. simpl.
  destruct (pc || cn); simpl.
  - destruct (0 <=? fd); simpl; [reflexivity|].
    rewrite app_nil_r. reflexivity.
  - rewrite app_nil_r. reflexivity.
Qed.

(** C9. [disconnect()] is idempotent.  From any state it leaves both
    connection flags false and the descriptor at -1; a second call right
    after it changes nothing at all (no system call, no event); and from
    the Closed state (both flags false) two calls in a row issue no
    system call, emit no event and leave the state Closed. *)
Theorem disconnect_idempotent w :
  let w1 := snd (disconnect w) in
  (pending_connect (self w1) = false /\ connected (self w1) = false /\
   cli_fd (self w1) = -1) /\
  disconnect w1 = (tt, w1) /\
  (if pending_connect (self w) || connected (self w) then True
   else
     let w2 := snd (disconnect w1) in
     trace w2 = trace w /\ sys w2 = sys w /\ handler w2 = handler w /\
     pending_connect (self w2) = false /\ connected (self w2) = false).
Proof.
  intros w1. subst w1. rewrite disconnect_eq. cbn [snd].
  rewrite disconnect_eq. cbn [self handler sys trace disconnected set_connected
    set_pending_connect set_cli_fd pending_connect connected cli_fd orb andb].
  rewrite app_nil_r.
  split; [auto|]. split.
  - destruct w as [[h p fd pc cn ch cs] hd s t]; reflexivity.
  - cbn [snd self handler sys trace].
    destruct (pending_connect (self w) || connected (self w)); [exact I|].
    cbn [andb]. rewrite app_nil_r. repeat split; reflexivity.
Qed.

(** C3. [pollable_merge_set] adds the descriptor to the write set exactly
    when the client is connecting, or connected with a non-empty egress
    buffer; adds it to the read set exactly when the client is connected
    (and not connecting); returns the larger of [in_max_fd] and the
    descriptor when it registered something and [in_max_fd] otherwise; and
    leaves the client, the handler, the socket layer and the trace as they
    were. *)
Theorem merge_set_interest w (in_max_fd : Z) (rset wset : fd_set) :
  let c := self w in
  let write_interest :=
    pending_connect c
    || (connected c && negb (get_write_buffer_used (handler w) =? 0)) in
  let read_interest := negb (pending_connect c) && connected c in
  let '(res, w') := pollable_merge_set in_max_fd rset wset w in
  let '(max_fd, rset', wset') := res in
  w' = w /\
  wset' = (if write_interest then {[cli_fd c]} ∪ wset else wset) /\
  rset' = (if read_interest then {[cli_fd c]} ∪ rset else rset) /\
  max_fd = (if write_interest || read_interest
            then Z.max in_max_fd (cli_fd c) else in_max_fd) /\
  (if negb (pending_connect c) && connected c
      && (get_write_buffer_used (handler w) =? 0)
   then wset' = wset else True).
Proof.
  destruct w as [[h p fd pc cn ch cs] hd s t].
  unfold pollable_merge_set. unfold_monad. simpl.
  destruct pc; simpl.
  - destruct (Z.ltb_spec in_max_fd fd); simpl;
      (repeat split; try reflexivity; lia).
  - destruct cn; simpl.
    + destruct (Z.eqb_spec (get_write_buffer_used hd) 0) as [E|E]; simpl;
        destruct (Z.ltb_spec in_max_fd fd); simpl;
        (repeat split; try reflexivity; lia).
    + repeat split; reflexivity.
Qed.

Lemma to_size_t_nonneg z : 0 <= to_size_t z.
Proof. unfold to_size_t. apply Z.mod_pos_bound. lia. Qed.

Lemma frame_reserve {A} (obs : H -> A) req h r h1 :
  ingress_frame obs ->
  zero_copy_reserve_read_buffer_data req h = (r, h1) -> obs h1 = obs h.
Proof. intros (_ & Hf & _) E. specialize (Hf req h). rewrite E in Hf. exact Hf. Qed.

Lemma frame_commit {A} (obs : H -> A) n h a h1 :
  ingress_frame obs ->
  commit_read_buffer_data n h = (a, h1) -> obs h1 = obs h.
Proof. intros (_ & _ & Hf & _) E. specialize (Hf n h). rewrite E in Hf. exact Hf. Qed.

Lemma frame_error {A} (obs : H -> A) m h :
  ingress_frame obs -> obs (buffer_error m h) = obs h.
Proof. intros (_ & _ & _ & Hf). apply Hf. Qed.

Lemma frame_trigger {A} (obs : H -> A) n h :
  ingress_frame obs -> obs (trigger_read_callback n h) = obs h.
Proof. intros (Hf & _). apply Hf. Qed.

Lemma recv_contract fd len s r errno s1 :
  recv_within_request -> sys_recv fd len s = (r, errno, s1) -> r <= len.
Proof. intros Hc E. specialize (Hc fd len s). rewrite E in Hc. exact Hc. Qed.

(** Rewrites an observation of the handler back to the start of the round. *)
Ltac use_frame obs Hfr :=
  cbn; rewrite ?(frame_error obs _ _ Hfr);
  repeat match goal with
    | E : commit_read_buffer_data _ _ = (_, ?h) |- context [obs ?h] =>
        rewrite (frame_commit obs _ _ _ _ Hfr E)
    | E : zero_copy_reserve_read_buffer_data _ _ = (_, ?h) |- context [obs ?h] =>
        rewrite (frame_reserve obs _ _ _ _ Hfr E)
    end; reflexivity.

Lemma close_events_bounded c : Forall recv_bounded (close_events c).
Proof.
  unfold close_events. destruct (0 <=? cli_fd c); repeat constructor.
Qed.

(** Every [recv] of a round respects the length it was given. *)
Ltac recv_bounds :=
  repeat first
    [ apply List.Forall_nil
    | apply close_events_bounded
    | apply List.Forall_cons; [cbn; first [exact I | eauto using recv_contract]|] ].

(** Closes a stopping round of [read_loop_run]. *)
Ltac close_round shape :=
  split; [reflexivity|]; cbn; rewrite <- ?app_assoc; cbn;
  split; [reflexivity|];
  split; [shape; try (assumption || lia)|];
  split; [reflexivity|];
  split; [discriminate|];
  split; [intros Hcontract; recv_bounds|];
  split; [discriminate|];
  let A := fresh "A" in let obs := fresh "obs" in let Hfr := fresh "Hfr" in
  intros A obs Hfr; use_frame obs Hfr.

Lemma read_loop_run fuel : forall w,
  connected (self w) = true ->
  exists st evs w',
    read_loop fuel w = (flow_of_stop st, w') /\
    trace w' = trace w ++ evs /\
    loop_run (self w) evs st /\
    self w' = (match st with
               | StopReadError | StopRemoteClosed | StopCommitRefused =>
                   disconnected (self w)
               | _ => self w
               end) /\
    (st = StopCondition -> get_read_buffer_available (handler w') <= 0) /\
    (recv_within_request -> Forall recv_bounded evs) /\
    (st = StopFuel -> commit_consumes_space ->
     Z.of_nat fuel <= Z.max 0 (get_read_buffer_available (handler w))) /\
    (forall (A : Type) (obs : H -> A), ingress_frame obs ->
     obs (handler w') = obs (handler w)).
Proof.
  induction fuel as [|fuel IH]; intros w Hc.
  - exists StopFuel, [], w. cbn. rewrite app_nil_r.
    repeat split; try constructor; try discriminate. lia.
  - cbn [read_loop]. unfold_monad. rewrite Hc. cbn.
    destruct (Z.ltb_spec 0 (get_read_buffer_available (handler w))) as [Ha|Ha]; cbn.
    2:{ exists StopCondition, [], w. cbn. rewrite app_nil_r.
        repeat split; try constructor; try discriminate; auto. }
    destruct (zero_copy_reserve_read_buffer_data
                (get_read_buffer_available (handler w)) (handler w))
      as [r0 h1] eqn:Er.
    cbn.
    destruct (Z.leb_spec (to_size_t r0) 0) as [Hl|Hl]; cbn.
    { assert (Hz : to_size_t r0 = 0).
      { pose proof (to_size_t_nonneg r0). lia. }
      rewrite Hz.
      destruct (commit_read_buffer_data 0 h1) as [acc h2] eqn:Ec. cbn.
      eexists StopZeroReservation, _, _. close_round ltac:(apply run_zero). }
    destruct (sys_recv (cli_fd (self w)) (to_size_t r0) (sys w))
      as [[r errno] s1] eqn:Es.
    cbn.
    destruct (Z.ltb_spec r 0) as [Hr|Hr].
    { destruct (retryable errno) eqn:Ey; cbn;
        destruct (commit_read_buffer_data 0 h1) as [acc h2] eqn:Ec; cbn.
      - eexists StopWouldBlock, _, _. close_round ltac:(apply run_would_block).
      - rewrite disconnect_eq. cbn. rewrite Hc, orb_true_r.
        eexists StopReadError, _, _. close_round ltac:(apply run_read_error). }
    destruct (Z.eqb_spec r 0) as [Hz|Hz].
    { subst r. cbn. destruct (commit_read_buffer_data 0 h1) as [acc h2] eqn:Ec; cbn.
      rewrite disconnect_eq. cbn. rewrite Hc, orb_true_r.
      eexists StopRemoteClosed, _, _. close_round ltac:(apply run_remote_closed). }
    cbn. destruct (commit_read_buffer_data r h1) as [[|] h2] eqn:Ec; cbn.
    2:{ rewrite disconnect_eq. cbn. rewrite Hc, orb_true_r.
        eexists StopCommitRefused, _, _. close_round ltac:(apply run_refused). }
    match goal with |- context [read_loop fuel ?w2] =>
      destruct (IH w2 Hc)
        as (st & evs & w' & Hrun & Htr & Hshape & Hself & Hav & Hbd & Hfuel & Hfr)
    end.
    cbn in *.
    exists st, (EvReserve (get_read_buffer_available (handler w)) (to_size_t r0)
                :: EvRecv (cli_fd (self w)) (to_size_t r0) r errno
                :: EvCommit r true :: evs), w'.
    split; [exact Hrun|]. split.
    { rewrite Htr, <- !app_assoc. reflexivity. }
    split; [apply run_more; [assumption|lia|assumption]|].
    split; [assumption|]. split; [assumption|]. split.
    { intros Hcontract. specialize (Hbd Hcontract). recv_bounds. assumption. }
    split.
    { intros Hst Hlaw. specialize (Hfuel Hst Hlaw).
      pose proof (Hlaw _ _ _ _ _ r Er ltac:(lia) Ec). lia. }
    intros A obs Hframe. rewrite (Hfr A obs Hframe).
    rewrite (frame_commit obs _ _ _ _ Hframe Ec).
    apply (frame_reserve obs _ _ _ _ Hframe Er).
Qed.

(** *** The connecting block *)

Lemma poll_pending_eq w (wset : fd_set) :
  let c := self w in
  poll_pending wset w =
  if FD_ISSET (cli_fd c) wset then
    let '(r, e, s1) := sys_getsockopt_so_error (cli_fd c) (sys w) in
    if (r <? 0) || negb (e =? 0) then
      (0, World (disconnected c)
                (buffer_error (msg_connect_failed (host c) (port c) e) (handler w))
                (if 0 <=? cli_fd c then sys_close (cli_fd c) s1 else s1)
                (trace w ++ [EvGetsockopt (cli_fd c) r e;
                             EvBufferError (msg_connect_failed (host c) (port c) e)]
                         ++ close_events c))
    else
      (0, World (set_pending_connect false (set_connected true c))
                (handler w) s1 (trace w ++ [EvGetsockopt (cli_fd c) r e]))
  else (0, w).
Proof.
  destruct w as [[h p fd pc cn ch cs] hd s t].
  unfold poll_pending, close_events, disconnected. unfold_monad. cbn.
  destruct (FD_ISSET fd wset); [|reflexivity]. cbn.
  destruct (sys_getsockopt_so_error fd s) as [[r e] s1]. cbn.
  destruct ((r <? 0) || negb (e =? 0)); cbn; [|reflexivity].
  destruct (0 <=? fd); cbn; rewrite <- ?app_assoc; reflexivity.
Qed.

(** *** The write block *)

Lemma poll_write_eq w (wset : fd_set) :
  let c := self w in
  let used := get_write_buffer_used (handler w) in
  poll_write wset w =
  if connected c && FD_ISSET (cli_fd c) wset && negb (used =? 0) then
    let '(buf, h1) := zero_copy_peek_write_buffer_data used (handler w) in
    let '(r, errno, s1) := sys_send (cli_fd c) buf (sys w) in
    let h2 := peek_free_write_buffer_data h1 in
    let sent := [EvPeek used buf; EvSend (cli_fd c) buf r errno; EvPeekFree] in
    if r <? 0 then
      if retryable errno then
        (0, World c h2 s1 (trace w ++ sent))
      else
        (0, World (disconnected c) (buffer_error (msg_write_error c errno) h2)
                  (if 0 <=? cli_fd c then sys_close (cli_fd c) s1 else s1)
                  (trace w ++ sent ++ [EvBufferError (msg_write_error c errno)]
                           ++ close_events c))
    else if r =? 0 then
      (0, World (disconnected c) (buffer_error (msg_write_closed c) h2)
                (if 0 <=? cli_fd c then sys_close (cli_fd c) s1 else s1)
                (trace w ++ sent ++ [EvBufferError (msg_write_closed c)]
                         ++ close_events c))
    else
      (0, World c (consume_write_buffer_data r h2) s1
                (trace w ++ sent ++ [EvConsume r]))
  else (0, w).
Proof.
  destruct w as [c hd s t].
  unfold poll_write. unfold_monad. cbn.
  destruct (connected c) eqn:Hc; cbn; [|reflexivity].
  destruct (FD_ISSET (cli_fd c) wset); cbn; [|reflexivity].
  destruct (get_write_buffer_used hd =? 0); cbn; [reflexivity|].
  destruct (zero_copy_peek_write_buffer_data (get_write_buffer_used hd) hd)
    as [buf h1]. cbn.
  destruct (sys_send (cli_fd c) buf s) as [[r errno] s1]. cbn.
  destruct (r <? 0); [destruct (retryable errno)|destruct (r =? 0)]; cbn;
    rewrite ?disconnect_eq; cbn; rewrite ?Hc, ?orb_true_r; cbn;
    rewrite <- ?app_assoc; try reflexivity.
Qed.

(** *** The read block *)

Lemma poll_read_run fuel (rset : fd_set) w :
  connected (self w) = true ->
  exists st pre evs w',
    poll_read fuel rset w = (flow_of_stop st, w') /\
    trace w' = trace w ++ pre ++ evs /\
    (pre = [] \/ pre = [EvTriggerReadCallback]) /\
    (FD_ISSET (cli_fd (self w)) rset = false -> st = StopCondition /\ w' = w) /\
    loop_run (self w) evs st /\
    self w' = (match st with
               | StopReadError | StopRemoteClosed | StopCommitRefused =>
                   disconnected (self w)
               | _ => self w
               end) /\
    (recv_within_request -> Forall recv_bounded evs) /\
    (st = StopFuel -> commit_consumes_space ->
     Z.of_nat fuel <=
     Z.max 0 (get_read_buffer_available
                (if get_read_buffer_available (handler w) =? 0
                 then trigger_read_callback 0 (handler w) else handler w))) /\
    (forall (A : Type) (obs : H -> A), ingress_frame obs ->
     obs (handler w') = obs (handler w)).
Proof.
  intros Hc. unfold poll_read. unfold_monad.
  destruct (FD_ISSET (cli_fd (self w)) rset) eqn:Hset.
  2:{ exists StopCondition, [], [], w. cbn. rewrite app_nil_r.
      repeat split; auto; try constructor; try discriminate. }
  destruct (Z.eqb_spec (get_read_buffer_available (handler w)) 0) as [Ea|Ea].
  - match goal with |- context [read_loop fuel ?w2] =>
      destruct (read_loop_run fuel w2 Hc)
        as (st & evs & w' & Hrun & Htr & Hshape & Hself & Hav & Hbd & Hfuel & Hfr)
    end.
    cbn in *.
    (* the loop condition fails at once: no free space *)
    exists st, [EvTriggerReadCallback], evs, w'.
    split; [exact Hrun|]. split; [rewrite Htr, <- app_assoc; reflexivity|].
    split; [auto|]. split; [discriminate|].
    split; [assumption|]. split; [assumption|]. split; [assumption|].
    split.
    { destruct (Z.eqb_spec (get_read_buffer_available (handler w)) 0); [|lia].
      assumption. }
    intros A obs Hframe. rewrite (Hfr A obs Hframe).
    apply frame_trigger; assumption.
  - destruct (read_loop_run fuel w Hc)
      as (st & evs & w' & Hrun & Htr & Hshape & Hself & Hav & Hbd & Hfuel & Hfr).
    exists st, [], evs, w'. cbn.
    replace {| self := self w; handler := handler w; sys := sys w; trace := trace w |}
      with w by (destruct w; reflexivity).
    destruct (Z.eqb_spec (get_read_buffer_available (handler w)) 0); [lia|].
    repeat split; auto; discriminate.
Qed.

(** *** Trace observations distribute over concatenation *)

Lemma committed_total_app a b :
  committed_total (a ++ b) = committed_total a + committed_total b.
Proof. induction a as [|[] a IH]; cbn; lia. Qed.

Lemma positive_recv_total_app a b :
  positive_recv_total (a ++ b) = positive_recv_total a + positive_recv_total b.
Proof. induction a as [|[] a IH]; cbn; lia. Qed.

Lemma transmitted_app a b : transmitted (a ++ b) = transmitted a ++ transmitted b.
Proof.
  induction a as [|[] a IH]; cbn; try assumption; try reflexivity.
  rewrite IH, app_assoc. reflexivity.
Qed.

Lemma commits_within_no_commit b :
  forallb (fun e => negb (is_commit e)) b = true ->
  forall cap, commits_within_reservation cap b = true.
Proof.
  induction b as [|e b IH]; cbn; [reflexivity|].
  intros Hb cap. apply andb_true_iff in Hb as [He Hb].
  destruct e; cbn in *; try discriminate; auto.
Qed.

Lemma commits_within_app a b :
  forallb (fun e => negb (is_commit e)) b = true ->
  forall cap, commits_within_reservation cap a = true ->
              commits_within_reservation cap (a ++ b) = true.
Proof.
  intros Hb. induction a as [|e a IH]; cbn; intros cap Ha.
  - apply commits_within_no_commit; assumption.
  - destruct e; cbn in *; auto.
    apply andb_true_iff in Ha as [-> Ha]. cbn. auto.
Qed.

Lemma commits_within_prefix a b :
  forallb (fun e => negb (is_commit e)) a = true ->
  (forall cap, commits_within_reservation cap b = true) ->
  forall cap, commits_within_reservation cap (a ++ b) = true.
Proof.
  intros Ha Hb. induction a as [|e a IH]; cbn; intros cap; [apply Hb|].
  cbn in Ha. apply andb_true_iff in Ha as [He Ha].
  destruct e; cbn in *; try discriminate; auto.
Qed.

Lemma failures_reported_app a b :
  failures_reported a = true -> failures_reported b = true ->
  failures_reported (a ++ b) = true.
Proof.
  intros Ha Hb. induction a as [|e a IH]; cbn in *; [assumption|].
  apply andb_true_iff in Ha as [He Ha]. rewrite (IH Ha), andb_true_r.
  destruct (is_transport_failure e); [|reflexivity].
  rewrite existsb_app, He. reflexivity.
Qed.

(** *** Consequences of the shape of the loop traces *)

Lemma close_events_cases c :
  close_events c = [] \/ close_events c = [EvClose (cli_fd c)].
Proof. unfold close_events. destruct (0 <=? cli_fd c); auto. Qed.

Lemma loop_run_totals c evs st :
  loop_run c evs st -> committed_total evs = positive_recv_total evs.
Proof.
  induction 1; cbn;
    try (destruct (close_events_cases c) as [-> | ->]; cbn);
    repeat match goal with
      | |- context [0 <? ?r] => destruct (Z.ltb_spec 0 r)
      end; lia.
Qed.

Lemma loop_run_within c evs st :
  loop_run c evs st -> Forall recv_bounded evs ->
  forall cap, commits_within_reservation cap evs = true.
Proof.
  induction 1; intros Hb cap; cbn;
    try (destruct (close_events_cases c) as [-> | ->]; cbn);
    try reflexivity; cbn in Hb;
    repeat match goal with
      | Hf : Forall recv_bounded (_ :: _) |- _ =>
          let Hh := fresh "Hh" in let Ht := fresh "Ht" in
          inversion Hf as [|? ? Hh Ht]; subst; clear Hf; cbn in Hh
      end;
    try (apply andb_true_iff; split; [apply Z.leb_le; lia|auto]).
Qed.

Lemma loop_run_failures c evs st :
  loop_run c evs st -> failures_reported evs = true.
Proof.
  induction 1; cbn;
    try (destruct (close_events_cases c) as [-> | ->]; cbn);
    repeat match goal with
      | |- context [?r <? 0] => destruct (Z.ltb_spec r 0); try lia
      | |- context [?r =? 0] => destruct (Z.eqb_spec r 0); try lia
      | Hy : retryable _ = _ |- _ => rewrite Hy
      end; cbn; auto.
Qed.

Lemma loop_run_no_write c evs st :
  loop_run c evs st ->
  transmitted evs = [] /\
  forallb (fun e => negb (is_send e)) evs = true /\
  forallb (fun e => negb (is_getsockopt e)) evs = true.
Proof.
  induction 1; cbn;
    try (destruct (close_events_cases c) as [-> | ->]; cbn); auto.
Qed.

(** A refused commit of a received chunk ends the trace of the loop: only
    the events of [disconnect] follow it, and everything before it is
    quiet. *)
Lemma loop_run_refused c evs st n :
  loop_run c evs st -> In (EvCommit n false) evs -> 0 < n ->
  st = StopCommitRefused /\
  exists pre, evs = pre ++ EvCommit n false :: close_events c /\
              forallb quiet pre = true.
Proof.
  induction 1; intros Hin Hn.
  - destruct Hin.
  - destruct Hin.
  - cbn in Hin. destruct Hin as [?|[E|[]]]; [discriminate|]. inversion E; lia.
  - cbn in Hin. destruct Hin as [?|[?|[E|[]]]]; try discriminate. inversion E; lia.
  - cbn in Hin. destruct Hin as [?|[?|[E|[?|Hin]]]]; try discriminate.
    + inversion E; lia.
    + destruct (close_events_cases c) as [Hce | Hce]; rewrite Hce in Hin;
        cbn in Hin; intuition discriminate.
  - cbn in Hin. destruct Hin as [?|[?|[E|[?|Hin]]]]; try discriminate.
    + inversion E; lia.
    + destruct (close_events_cases c) as [Hce | Hce]; rewrite Hce in Hin;
        cbn in Hin; intuition discriminate.
  - cbn in Hin. destruct Hin as [?|[?|[E|Hin]]]; try discriminate.
    + inversion E; subst. split; [reflexivity|].
      exists [EvReserve req len; EvRecv (cli_fd c) len n errno]. auto.
    + destruct (close_events_cases c) as [Hce | Hce]; rewrite Hce in Hin;
        cbn in Hin; intuition discriminate.
  - cbn in Hin. destruct Hin as [?|[?|[?|Hin]]]; try discriminate.
    destruct (IHloop_run Hin Hn) as (-> & pre & -> & Hq).
    split; [reflexivity|].
    exists (EvReserve req len :: EvRecv (cli_fd c) len r errno :: EvCommit r true :: pre).
    split; [reflexivity|]. cbn. assumption.
Qed.

Lemma write_phase_events_facts evs :
  forallb is_write_phase_event evs = true ->
  committed_total evs = 0 /\ positive_recv_total evs = 0 /\
  forallb (fun e => negb (is_commit e)) evs = true /\
  (forall n a, ~ In (EvCommit n a) evs).
Proof.
  induction evs as [|e evs IH]; cbn; [auto|].
  intros Hw. apply andb_true_iff in Hw as [He Hw].
  destruct (IH Hw) as (Hc & Hr & Hn & Hi).
  destruct e; cbn in *; try discriminate;
    (repeat split; auto; intros n0 a0 [E|Hin]; [discriminate|exact (Hi _ _ Hin)]).
Qed.

Lemma poll_write_run w (wset : fd_set) :
  exists evs w',
    poll_write wset w = (0, w') /\
    trace w' = trace w ++ evs /\
    forallb is_write_phase_event evs = true /\
    failures_reported evs = true.
Proof.
  rewrite poll_write_eq. cbv zeta.
  destruct (connected (self w) && FD_ISSET (cli_fd (self w)) wset
            && negb (get_write_buffer_used (handler w) =? 0)).
  2:{ exists [], w. rewrite app_nil_r. auto. }
  destruct (zero_copy_peek_write_buffer_data _ _) as [buf h1].
  destruct (sys_send _ _ _) as [[r errno] s1].
  destruct (Z.ltb_spec r 0) as [Hr|Hr]; [destruct (retryable errno) eqn:Ey|
    destruct (Z.eqb_spec r 0) as [Hz|Hz]];
    eexists _, _; (split; [reflexivity|]); cbn [trace];
    (split; [reflexivity|]);
    try (destruct (close_events_cases (self w)) as [-> | ->]); cbn;
    repeat match goal with
      | |- context [?r <? 0] => destruct (Z.ltb_spec r 0); try lia
      | |- context [?r =? 0] => destruct (Z.eqb_spec r 0); try lia
      end; rewrite ?Ey; cbn; auto.
Qed.

(** *** The whole service call *)

Lemma pollable_poll_unfold fuel (rset wset : fd_set) w :
  pollable_poll fuel rset wset w =
  if pending_connect (self w) then
    let '(r, w') := poll_pending wset w in (Some r, w')
  else if negb (connected (self w)) then (Some 0, w)
  else
    let '(f, w1) := poll_read fuel rset w in
    match f with
    | None => (None, w1)
    | Some (Returned r) => (Some r, w1)
    | Some Fallthrough => let '(r, w2) := poll_write wset w1 in (Some r, w2)
    end.
Proof.
  unfold pollable_poll. unfold_monad.
  destruct (pending_connect (self w)).
  - destruct (poll_pending wset w). reflexivity.
  - destruct (negb (connected (self w))); [reflexivity|].
    destruct (poll_read fuel rset w) as [[[|r]|] w1]; reflexivity.
Qed.

(** The events of one service call: those of the connecting block, or
    nothing for a closed client, or an optional buffer-full hint, a run of
    the read loop and the events of the write block. *)
Lemma pollable_poll_trace fuel (rset wset : fd_set) w :
  exists r w' evs,
    pollable_poll fuel rset wset w = (r, w') /\
    trace w' = trace w ++ evs /\
    ((pending_connect (self w) = true /\ r = Some 0 /\
      (evs = [] \/
       exists rc e,
         evs = [EvGetsockopt (cli_fd (self w)) rc e] /\
         is_transport_failure (EvGetsockopt (cli_fd (self w)) rc e) = false \/
         evs = [EvGetsockopt (cli_fd (self w)) rc e;
                EvBufferError (msg_connect_failed (host (self w)) (port (self w)) e)]
                 ++ close_events (self w))) \/
     (pending_connect (self w) = false /\ connected (self w) = false /\
      r = Some 0 /\ evs = []) \/
     (pending_connect (self w) = false /\ connected (self w) = true /\
      exists st pre run wr,
        evs = pre ++ run ++ wr /\
        (pre = [] \/ pre = [EvTriggerReadCallback]) /\
        loop_run (self w) run st /\
        (recv_within_request -> Forall recv_bounded run) /\
        forallb is_write_phase_event wr = true /\
        failures_reported wr = true /\
        match st with
        | StopReadError | StopRemoteClosed | StopCommitRefused =>
            wr = [] /\ r = Some 0 /\ self w' = disconnected (self w)
        | StopFuel => wr = [] /\ r = None
        | _ => r = Some 0
        end)).
Proof.
  rewrite pollable_poll_unfold.
  destruct (pending_connect (self w)) eqn:Hp.
  { rewrite poll_pending_eq. cbv zeta.
    destruct (FD_ISSET (cli_fd (self w)) wset).
    2:{ exists (Some 0), w, []. rewrite app_nil_r. auto 10. }
    destruct (sys_getsockopt_so_error _ _) as [[rc e] s1].
    destruct ((rc <? 0) || negb (e =? 0)) eqn:Hfail.
    - eexists _, _, _. split; [reflexivity|]. split; [reflexivity|].
      left. split; [reflexivity|]. split; [reflexivity|].
      right. exists rc, e. right. reflexivity.
    - eexists _, _, _. split; [reflexivity|]. split; [reflexivity|].
      left. split; [reflexivity|]. split; [reflexivity|].
      right. exists rc, e. left. split; [reflexivity|]. exact Hfail. }
  destruct (connected (self w)) eqn:Hc; cbn [negb].
  2:{ exists (Some 0), w, []. rewrite app_nil_r. auto 10. }
  destruct (poll_read_run fuel rset w Hc)
    as (st & pre & run & w1 & Hrun & Htr & Hpre & _ & Hshape & Hself & Hbd & _ & _).
  rewrite Hrun.
  destruct st; cbn [flow_of_stop].
  1-3: destruct (poll_write_run w1 wset) as (wr & w2 & Hw & Htw & Hwr & Hfr);
       rewrite Hw; exists (Some 0), w2, (pre ++ run ++ wr);
       (split; [reflexivity|]);
       (split; [rewrite Htw, Htr, <- !app_assoc; reflexivity|]);
       right; right; (split; [reflexivity|]); (split; [reflexivity|]);
       match type of Hshape with loop_run _ _ ?s => exists s, pre, run, wr end; auto 10.
  1-3: exists (Some 0), w1, (pre ++ run ++ []);
       (split; [reflexivity|]);
       (split; [rewrite Htr, app_nil_r; reflexivity|]);
       right; right; (split; [reflexivity|]); (split; [reflexivity|]);
       match type of Hshape with loop_run _ _ ?s => exists s, pre, run, [] end; (split; [reflexivity|]);
       (split; [assumption|]); (split; [eassumption|]); auto 10.
  exists None, w1, (pre ++ run ++ []).
  split; [reflexivity|]. split; [rewrite Htr, app_nil_r; reflexivity|].
  right; right. split; [reflexivity|]. split; [reflexivity|].
  exists StopFuel, pre, run, []. auto 10.
Qed.

(** ** The claims about the service call *)

(** C2. Whatever the socket layer answers during one service call
    (partial reads, zero, would-block or interrupted, hard errors), the
    lengths handed to [commit_read_buffer_data] in that call add up to
    the sum of the positive return values of [recv]; and, [recv] never
    returning more than the length it was given, every commit is at most
    the length of the reservation obtained just before it.  This holds
    for every bound on the number of loop rounds, hence for every
    completed call. *)
Theorem commits_match_receives fuel (rset wset : fd_set) w :
  recv_within_request ->
  exists evs,
    trace (snd (pollable_poll fuel rset wset w)) = trace w ++ evs /\
    committed_total evs = positive_recv_total evs /\
    commits_within_reservation 0 evs = true.
Proof.
  intros Hrecv.
  destruct (pollable_poll_trace fuel rset wset w)
    as (r & w' & evs & Hrun & Htr & Hcases).
  rewrite Hrun. cbn [snd]. exists evs. split; [exact Htr|].
  destruct Hcases as [(_ & _ & Hev) | [(_ & _ & _ & ->) |
    (_ & _ & st & pre & run & wr & -> & Hpre & Hshape & Hbd & Hwr & _)]].
  - destruct Hev as [-> | (rc & e & [[-> _] | ->])]; cbn; auto.
    destruct (close_events_cases (self w)) as [-> | ->]; cbn; auto.
  - cbn. auto.
  - destruct (write_phase_events_facts wr Hwr) as (Hc0 & Hr0 & Hnc & _).
    rewrite !committed_total_app, !positive_recv_total_app, Hc0, Hr0.
    rewrite (loop_run_totals _ _ _ Hshape).
    split.
    + destruct Hpre as [-> | ->]; cbn; lia.
    + apply commits_within_prefix.
      * destruct Hpre as [-> | ->]; reflexivity.
      * intros cap. apply commits_within_app; [assumption|].
        apply (loop_run_within _ _ _ Hshape). auto.
Qed.

(** C4. A connecting client whose descriptor is write-ready queries
    [SO_ERROR] exactly once.  If the query succeeds with error zero the
    client becomes connected and nothing else happens; otherwise the
    connect-failure message goes to [buffer_error], the descriptor is
    closed and the client is closed.  Either way the call returns 0 at
    once: the trace holds no [recv], no [send] and no handler operation
    besides that [buffer_error]. *)
Theorem connect_completion fuel (rset wset : fd_set) w :
  pending_connect (self w) = true ->
  FD_ISSET (cli_fd (self w)) wset = true ->
  0 <= cli_fd (self w) ->
  let c := self w in
  let '(r, e, s1) := sys_getsockopt_so_error (cli_fd c) (sys w) in
  pollable_poll fuel rset wset w =
  if (0 <=? r) && (e =? 0) then
    (Some 0,
     World (set_pending_connect false (set_connected true c))
           (handler w) s1
           (trace w ++ [EvGetsockopt (cli_fd c) r e]))
  else
    (Some 0,
     World (set_connected false (set_pending_connect false (set_cli_fd (-1) c)))
           (buffer_error (msg_connect_failed (host c) (port c) e) (handler w))
           (sys_close (cli_fd c) s1)
           (trace w ++ [EvGetsockopt (cli_fd c) r e;
                        EvBufferError (msg_connect_failed (host c) (port c) e);
                        EvClose (cli_fd c)])).
Proof.
  intros Hp Hset Hfd c. subst c.
  rewrite pollable_poll_unfold, Hp, poll_pending_eq. cbv zeta. rewrite Hset.
  destruct (sys_getsockopt_so_error _ _) as [[r e] s1].
  unfold close_events.
  destruct (Z.leb_spec 0 (cli_fd (self w))) as [_|]; [|lia].
  destruct (Z.ltb_spec r 0), (Z.leb_spec 0 r); try lia;
    destruct (e =? 0); reflexivity.
Qed.

(** C10. If the handler refuses the commit of a chunk that [recv]
    delivered, the service call returns 0 with the client disconnected;
    the refused commit is followed by nothing but the [close] of
    [disconnect], and nothing before it in the call was a
    [buffer_error], a [send], a [close] or another refused commit: the
    client pushes no message of its own and attempts no further [recv]
    and no [send]. *)
Theorem refused_commit_disconnects fuel (rset wset : fd_set) w n evs :
  trace (snd (pollable_poll fuel rset wset w)) = trace w ++ evs ->
  In (EvCommit n false) evs ->
  0 < n ->
  fst (pollable_poll fuel rset wset w) = Some 0 /\
  self (snd (pollable_poll fuel rset wset w)) = disconnected (self w) /\
  exists pre,
    evs = pre ++ EvCommit n false :: close_events (self w) /\
    forallb quiet pre = true.
Proof.
  intros Htrace Hin Hn.
  destruct (pollable_poll_trace fuel rset wset w)
    as (r & w' & evs' & Hrun & Htr & Hcases).
  rewrite Hrun in *. cbn [fst snd] in *.
  rewrite Htr in Htrace. apply app_inv_head in Htrace. subst evs'.
  destruct Hcases as [(_ & _ & Hev) | [(_ & _ & _ & ->) |
    (_ & _ & st & pre & run & wr & -> & Hpre & Hshape & _ & Hwr & _ & Hst)]].
  - exfalso.
    destruct Hev as [-> | (rc & e & [[-> _] | ->])]; cbn in Hin;
      try (destruct (close_events_cases (self w)) as [Hce | Hce];
           rewrite Hce in Hin; cbn in Hin);
      intuition discriminate.
  - destruct Hin.
  - destruct (write_phase_events_facts wr Hwr) as (_ & _ & _ & Hnw).
    assert (Hrun_in : In (EvCommit n false) run).
    { apply in_app_or in Hin as [Hin|Hin].
      - destruct Hpre as [-> | ->]; cbn in Hin; intuition discriminate.
      - apply in_app_or in Hin as [Hin|Hin]; [assumption|].
        exfalso. exact (Hnw _ _ Hin). }
    destruct (loop_run_refused _ _ _ _ Hshape Hrun_in Hn) as (-> & p & -> & Hq).
    destruct Hst as (-> & -> & Hself).
    split; [reflexivity|]. split; [assumption|].
    exists (pre ++ p). split.
    + rewrite app_nil_r, <- app_assoc. reflexivity.
    + rewrite forallb_app, Hq, andb_true_r.
      destruct Hpre as [-> | ->]; reflexivity.
Qed.

(** ** [connect] *)

(** The effect of [connect], path by path. *)
Lemma connect_eq in_host in_port w :
  let c := self w in
  connect in_host in_port w =
  if connected c then
    (-1, World c (handler w) (sys w)
               (trace w ++ [EvMsgError (msg_already_connected in_host in_port c)]))
  else
    let '(he, s1) := sys_gethostbyname in_host (sys w) in
    match he with
    | None =>
        (-1, World (set_client_host None c) (handler w) s1
                   (trace w ++ [EvGethostbyname in_host false;
                                EvMsgError (msg_resolve in_host)]))
    | Some ent =>
        let addr :=
          SockaddrIn (h_addrtype ent)
                     (take (Z.to_nat (h_length ent))
                           (default [] (head (h_addr_list ent))))
                     (htons in_port) in
        let '(fd, errno, s2) := sys_socket s1 in
        let c1 := TcpClient in_host in_port fd (pending_connect c) (connected c)
                            (Some ent) addr in
        if fd <? 0 then
          (-1, World c1 (handler w) s2
                     (trace w ++ [EvGethostbyname in_host true; EvSocket fd;
                                  EvMsgError (msg_connect_failed in_host in_port errno)]))
        else
          let '(fl, s3) := sys_fcntl_getfl fd s2 in
          let flags := Z.lor (Z.lor fl O_NONBLOCK) FD_CLOEXEC in
          let '(r, errno2, s5) := sys_connect fd addr (sys_fcntl_setfl fd flags s3) in
          let pre := [EvGethostbyname in_host true; EvSocket fd; EvFcntlGetfl fd;
                      EvFcntlSetfl fd flags; EvConnect fd addr r errno2] in
          if r <? 0 then
            if errno2 =? EINPROGRESS then
              (0, World (set_pending_connect true c1) (handler w) s5 (trace w ++ pre))
            else
              (-1, World (set_pending_connect false
                            (set_connected false (set_cli_fd (-1) c1)))
                         (buffer_error empty_message (handler w))
                         (sys_close fd s5)
                         (trace w ++ pre ++
                            [EvMsgError (msg_connect_failed in_host in_port errno2);
                             EvClose fd; EvBufferError empty_message]))
          else
            (0, World (set_pending_connect false (set_connected true c1))
                      (handler w) s5 (trace w ++ pre))
    end.
Proof.
  destruct w as [[h p fd0 pc cn ch cs] hd s t].
  unfold connect. unfold_monad. cbn.
  destruct cn; [reflexivity|]. cbn.
  destruct (sys_gethostbyname in_host s) as [[ent|] s1]; cbn;
    [|rewrite <- app_assoc; reflexivity].
  destruct (sys_socket s1) as [[fd errno] s2]; cbn.
  destruct (Z.ltb_spec fd 0) as [Hfd|Hfd]; cbn.
  { rewrite <- !app_assoc. reflexivity. }
  destruct (sys_fcntl_getfl fd s2) as [fl s3]; cbn.
  destruct (sys_connect fd _ _) as [[r errno2] s5]; cbn.
  destruct (r <? 0); cbn; [destruct (errno2 =? EINPROGRESS); cbn|];
    rewrite <- ?app_assoc; try reflexivity.
  destruct (Z.leb_spec 0 fd); [|lia]. cbn. rewrite <- ?app_assoc. reflexivity.
Qed.

(** While connected, [connect] fails and leaves the client, the handler
    and the socket layer untouched. *)
Lemma connect_refused_when_connected in_host in_port w :
  connected (self w) = true ->
  connect in_host in_port w =
  (-1, World (self w) (handler w) (sys w)
             (trace w ++ [EvMsgError (msg_already_connected in_host in_port (self w))])).
Proof. intros Hc. rewrite connect_eq. cbv zeta. rewrite Hc. reflexivity. Qed.

(** C7 (as the code has it), for a client that is neither connecting nor
    connected.  When resolution fails [connect] returns -1
    and [host], [port], [cli_fd] and both flags are what they were.  When
    socket creation fails [connect] returns -1, both flags are what they
    were and the only system calls made are [gethostbyname] and [socket]
    (nothing is done to a descriptor), but [host] and [port] already hold
    the requested endpoint and [cli_fd] holds the negative value [socket]
    returned. *)
Theorem connect_early_failure in_host in_port w :
  pending_connect (self w) = false ->
  connected (self w) = false ->
  let c := self w in
  let '(r, w') := connect in_host in_port w in
  let '(he, s1) := sys_gethostbyname in_host (sys w) in
  match he with
  | None =>
      r = -1 /\
      host (self w') = host c /\ port (self w') = port c /\
      cli_fd (self w') = cli_fd c /\
      pending_connect (self w') = pending_connect c /\
      connected (self w') = connected c /\
      handler w' = handler w /\
      trace w' = trace w ++ [EvGethostbyname in_host false;
                             EvMsgError (msg_resolve in_host)]
  | Some ent =>
      let '(fd, errno, _) := sys_socket s1 in
      if fd <? 0 then
        r = -1 /\
        host (self w') = in_host /\ port (self w') = in_port /\
        cli_fd (self w') = fd /\
        pending_connect (self w') = pending_connect c /\
        connected (self w') = connected c /\
        handler w' = handler w /\
        trace w' = trace w ++ [EvGethostbyname in_host true; EvSocket fd;
                               EvMsgError (msg_connect_failed in_host in_port errno)]
      else True
  end.
Proof.
  intros Hp Hc c. subst c. rewrite connect_eq. cbv zeta. rewrite Hp, Hc.
  destruct (sys_gethostbyname in_host (sys w)) as [[ent|] s1].
  - destruct (sys_socket s1) as [[fd errno] s2].
    destruct (fd <? 0) eqn:Hfd; [repeat split; reflexivity|].
    destruct (sys_fcntl_getfl fd s2) as [fl s3].
    destruct (sys_connect _ _ _) as [[r e] s5].
    destruct (r <? 0); [destruct (e =? EINPROGRESS)|]; exact I.
  - destruct w as [[]]. cbn in *. subst. repeat split; reflexivity.
Qed.

(** C6 (as the code has it).  The service call never returns anything
    but 0, and every transport failure it meets (failed connect
    completion, [recv] or [send] returning zero or failing with a
    non-retryable errno) is followed by a [buffer_error] in the same
    call.  In [connect], a failed [connect] system call is likewise
    followed by a [buffer_error]; but a resolution failure or a socket
    creation failure is answered by [_MSG_ERROR] and the return value -1
    alone: no [buffer_error] is issued. *)
Theorem transport_failures_reported fuel (rset wset : fd_set) in_host in_port w :
  ((fst (pollable_poll fuel rset wset w) = Some 0 \/
    fst (pollable_poll fuel rset wset w) = None) /\
   exists evs,
     trace (snd (pollable_poll fuel rset wset w)) = trace w ++ evs /\
     failures_reported evs = true) /\
  (exists evs,
     trace (snd (connect in_host in_port w)) = trace w ++ evs /\
     failures_reported evs = true /\
     if existsb is_early_failure evs
     then fst (connect in_host in_port w) = -1 /\
          existsb is_buffer_error evs = false
     else True).
Proof.
  split.
  - destruct (pollable_poll_trace fuel rset wset w)
      as (r & w' & evs & Hrun & Htr & Hcases).
    rewrite Hrun. cbn [fst snd].
    destruct Hcases as [(_ & -> & Hev) | [(_ & _ & -> & ->) |
      (_ & _ & st & pre & run & wr & -> & Hpre & Hshape & _ & _ & Hwr & Hst)]].
    + split; [auto|]. exists evs. split; [assumption|].
      destruct Hev as [-> | (rc & e & [[-> Hok] | ->])]; [reflexivity| |].
      * cbn [failures_reported]. rewrite Hok. reflexivity.
      * cbn. destruct ((rc <? 0) || negb (e =? 0));
          destruct (close_events_cases (self w)) as [-> | ->]; reflexivity.
    + split; [auto|]. exists []. auto.
    + split.
      * destruct st; intuition.
      * exists (pre ++ run ++ wr). split; [assumption|].
        apply failures_reported_app; [destruct Hpre as [-> | ->]; reflexivity|].
        apply failures_reported_app; [|assumption].
        exact (loop_run_failures _ _ _ Hshape).
  - rewrite connect_eq. cbv zeta.
    destruct (connected (self w)).
    { eexists. cbn [snd trace]. split; [reflexivity|]. cbn. auto. }
    destruct (sys_gethostbyname in_host (sys w)) as [[ent|] s1].
    2:{ eexists. cbn [snd trace]. split; [reflexivity|]. cbn. auto. }
    destruct (sys_socket s1) as [[fd errno] s2].
    destruct (Z.ltb_spec fd 0) as [Hfd|Hfd].
    { eexists. cbn [snd trace]. split; [reflexivity|]. cbn.
      destruct (Z.ltb_spec fd 0); [cbn; auto|lia]. }
    destruct (sys_fcntl_getfl fd s2) as [fl s3].
    destruct (sys_connect _ _ _) as [[r e] s5].
    destruct (Z.ltb_spec r 0) as [Hr|Hr]; [destruct (e =? EINPROGRESS) eqn:He|];
      (eexists; cbn [snd trace]; split; [reflexivity|]); cbn;
      destruct (Z.ltb_spec fd 0); try lia;
      destruct (Z.ltb_spec r 0); try lia; rewrite ?He; cbn; auto.
Qed.

Lemma loop_run_zero_breaks c evs st :
  loop_run c evs st -> zero_reservation_breaks evs = true.
Proof.
  induction 1; cbn;
    try (destruct (close_events_cases c) as [-> | ->]; cbn);
    repeat match goal with
      | |- context [?len <=? 0] => destruct (Z.leb_spec len 0); try lia
      end; auto.
Qed.

(** C8. With a bounded ring (an accepted commit of a received chunk
    leaves less free space than there was), the read loop of a connected
    client stops after at most as many accepted chunks as there were free
    bytes: any bound above the free space is enough for it to run to its
    end.  It stops because the loop condition failed (no free space
    left), a reservation had length zero, [recv] would block, failed or
    reported the remote close, or a commit was refused; and a reservation
    of length zero is always followed by a commit of zero bytes that ends
    the loop. *)
Theorem read_loop_terminates fuel w :
  commit_consumes_space ->
  connected (self w) = true ->
  Z.max 0 (get_read_buffer_available (handler w)) < Z.of_nat fuel ->
  exists st evs w',
    read_loop fuel w = (flow_of_stop st, w') /\
    st <> StopFuel /\
    trace w' = trace w ++ evs /\
    loop_run (self w) evs st /\
    zero_reservation_breaks evs = true /\
    match st with
    | StopCondition => get_read_buffer_available (handler w') <= 0
    | _ => True
    end.
Proof.
  intros Hlaw Hc Hfuel.
  destruct (read_loop_run fuel w Hc)
    as (st & evs & w' & Hrun & Htr & Hshape & _ & Hav & _ & Hout & _).
  exists st, evs, w'. split; [exact Hrun|]. split.
  { intros ->. specialize (Hout eq_refl Hlaw). lia. }
  split; [exact Htr|]. split; [exact Hshape|].
  split; [exact (loop_run_zero_breaks _ _ _ Hshape)|].
  destruct st; auto.
Qed.

(** What a read block that falls through leaves behind. *)
Lemma poll_read_fallthrough fuel (rset : fd_set) w w1 :
  connected (self w) = true ->
  poll_read fuel rset w = (Some Fallthrough, w1) ->
  self w1 = self w /\
  (exists evs, trace w1 = trace w ++ evs /\ transmitted evs = []) /\
  (forall (A : Type) (obs : H -> A), ingress_frame obs ->
     obs (handler w1) = obs (handler w)).
Proof.
  intros Hc Hread.
  destruct (poll_read_run fuel rset w Hc)
    as (st & pre & run & w' & Hrun & Htr & Hpre & _ & Hshape & Hself & _ & _ & Hfr).
  rewrite Hrun in Hread. inversion Hread as [[Hst Hw]]. subst w'.
  split.
  { destruct st; cbn in Hst; try discriminate; assumption. }
  split; [|exact Hfr].
  exists (pre ++ run). split; [assumption|].
  rewrite transmitted_app.
  destruct (loop_run_no_write _ _ _ Hshape) as (-> & _).
  destruct Hpre as [-> | ->]; reflexivity.
Qed.

End ClientProperties.

(** * The client on the Byte Ring *)

Section RingProperties.
Context {W : Type} `{OS : Sockets W}.

Implicit Types (w : world ring W).

Lemma ring_commit_consumes_space : commit_consumes_space (H := ring).
Proof.
  intros h h1 h2 req r n Hres Hn Hcommit. cbn in *.
  unfold ring_reserve in Hres. inversion Hres; subst. clear Hres.
  unfold ring_commit in Hcommit.
  destruct ((0 <=? n) && (n <=? ring_free h1)); [|discriminate].
  inversion Hcommit; subst. unfold ring_free. cbn. lia.
Qed.

Lemma ring_egress_frame : ingress_frame (H := ring) egress.
Proof.
  repeat split; cbn; intros; try reflexivity.
  unfold ring_commit. destruct ((0 <=? n) && (n <=? ring_free h)); reflexivity.
Qed.

(** One service call on the ring whose read block falls through and whose
    [send] moves [N] of the pending bytes. *)
Lemma ring_poll_send fuel (rset wset : fd_set) w w1 N errno s2 :
  pending_connect (self w) = false ->
  connected (self w) = true ->
  FD_ISSET (cli_fd (self w)) wset = true ->
  poll_read fuel rset w = (Some Fallthrough, w1) ->
  sys_send (cli_fd (self w)) (egress (handler w)) (sys w1) = (N, errno, s2) ->
  0 < N <= Z.of_nat (length (egress (handler w))) ->
  let data := egress (handler w) in
  let M := Z.of_nat (length data) in
  pollable_poll fuel rset wset w =
    (Some 0,
     World (self w) (ring_consume N (handler w1)) s2
           (trace w1 ++ [EvPeek M data; EvSend (cli_fd (self w)) data N errno;
                         EvPeekFree; EvConsume N])) /\
  egress (handler w1) = data /\
  transmitted (trace w1) = transmitted (trace w).
Proof.
  intros Hp Hc Hset Hread Hsend HN data M.
  destruct (poll_read_fallthrough fuel rset w w1 Hc Hread)
    as (Hself & (evs & Htr & Hquiet) & Hfr).
  specialize (Hfr _ egress ring_egress_frame).
  split; [|split; [exact Hfr|]].
  2:{ rewrite Htr, transmitted_app, Hquiet, app_nil_r. reflexivity. }
  rewrite pollable_poll_unfold, Hp, Hc, Hread. cbn [negb].
  rewrite poll_write_eq. cbv zeta. rewrite Hself, Hc, Hset. cbn [andb].
  cbn [get_write_buffer_used zero_copy_peek_write_buffer_data ring_handler
       peek_free_write_buffer_data consume_write_buffer_data].
  rewrite Hfr. fold data. fold M.
  assert (HM : (M =? 0) = false) by (apply Z.eqb_neq; subst M data; lia).
  rewrite HM. cbn [negb].
  replace (take (Z.to_nat M) data) with data
    by (subst M; rewrite Nat2Z.id, firstn_all; reflexivity).
  subst data. rewrite Hsend.
  destruct (Z.ltb_spec N 0); [lia|]. destruct (Z.eqb_spec N 0); [lia|].
  reflexivity.
Qed.

(** On the ring a service call runs to its end, and returns 0, as soon
    as the bound on loop rounds exceeds the free ingress space. *)
Lemma ring_poll_returns fuel (rset wset : fd_set) w :
  Z.max 0 (ring_free (handler w)) < Z.of_nat fuel ->
  fst (pollable_poll fuel rset wset w) = Some 0.
Proof.
  intros Hfuel. rewrite pollable_poll_unfold.
  destruct (pending_connect (self w)).
  { rewrite poll_pending_eq. cbv zeta.
    destruct (FD_ISSET _ _); [|reflexivity].
    destruct (sys_getsockopt_so_error _ _) as [[r e] s1].
    destruct (_ || _); reflexivity. }
  destruct (connected (self w)) eqn:Hc; [|reflexivity]. cbn [negb].
  destruct (poll_read_run fuel rset w Hc)
    as (st & pre & run & w1 & Hrun & _ & _ & _ & _ & _ & _ & Hout & _).
  rewrite Hrun.
  destruct st; cbn [flow_of_stop]; try reflexivity;
    try (destruct (poll_write_run w1 wset) as (wr & w2 & -> & _); reflexivity).
  exfalso. specialize (Hout eq_refl ring_commit_consumes_space).
  cbn in Hout. destruct (ring_free (handler w) =? 0);
    unfold ring_hint, ring_free in *; cbn in Hout; lia.
Qed.

(** C5 (as the code has it).  On the ring, take a connected client with
    [M] pending egress bytes whose descriptor is write-ready, in a
    service call whose read block falls through.  The call issues exactly
    one [send], of the whole pending region.  If that [send] moves [N]
    bytes, [0 < N < M], the ring is advanced by [N] and the last [M - N]
    bytes stay pending.  If then, in a later such call, the [send] moves
    the remaining [M - N] bytes, the ring is empty and the bytes that left
    over the two calls are the [M] original bytes, once each and in
    order. *)
Theorem short_send_keeps_remainder fuel (rset wset : fd_set) w w1 N errno s2 :
  let c := self w in
  let data := egress (handler w) in
  let M := Z.of_nat (length data) in
  let rest := drop (Z.to_nat N) data in
  let w2 := snd (pollable_poll fuel rset wset w) in
  pending_connect c = false ->
  connected c = true ->
  FD_ISSET (cli_fd c) wset = true ->
  poll_read fuel rset w = (Some Fallthrough, w1) ->
  sys_send (cli_fd c) data (sys w1) = (N, errno, s2) ->
  0 < N < M ->
  (fst (pollable_poll fuel rset wset w) = Some 0 /\
   trace w2 = trace w1 ++ [EvPeek M data; EvSend (cli_fd c) data N errno;
                           EvPeekFree; EvConsume N] /\
   transmitted (trace w2) = transmitted (trace w) ++ take (Z.to_nat N) data /\
   egress (handler w2) = rest /\
   Z.of_nat (length (egress (handler w2))) = M - N) /\
  (forall fuel' (rset' wset' : fd_set) w3 errno' s4,
     let w4 := snd (pollable_poll fuel' rset' wset' w2) in
     FD_ISSET (cli_fd c) wset' = true ->
     poll_read fuel' rset' w2 = (Some Fallthrough, w3) ->
     sys_send (cli_fd c) rest (sys w3) = (M - N, errno', s4) ->
     trace w4 = trace w3 ++ [EvPeek (M - N) rest;
                             EvSend (cli_fd c) rest (M - N) errno';
                             EvPeekFree; EvConsume (M - N)] /\
     egress (handler w4) = [] /\
     transmitted (trace w4) = transmitted (trace w) ++ data).
Proof.
  intros c data M rest w2 Hp Hc Hset Hread Hsend HN.
  destruct (ring_poll_send fuel rset wset w w1 N errno s2 Hp Hc Hset Hread Hsend
              ltac:(fold data; fold M; lia))
    as (Hcall & Heg & Htx).
  fold c data M in Hcall, Heg, Htx.
  assert (Hrest : Z.of_nat (length rest) = M - N).
  { subst rest M. rewrite length_drop. lia. }
  assert (Hw2 : w2 = World c (ring_consume N (handler w1)) s2
                       (trace w1 ++ [EvPeek M data; EvSend (cli_fd c) data N errno;
                                     EvPeekFree; EvConsume N])).
  { subst w2. rewrite Hcall. reflexivity. }
  assert (Heg2 : egress (handler w2) = rest).
  { rewrite Hw2. cbn. rewrite Heg. reflexivity. }
  assert (Htx2 : transmitted (trace w2)
                 = transmitted (trace w) ++ take (Z.to_nat N) data).
  { rewrite Hw2. cbn [trace]. rewrite transmitted_app, Htx. cbn.
    destruct (Z.ltb_spec 0 N); [|lia]. rewrite app_nil_r. reflexivity. }
  split.
  { rewrite Hcall. cbn [fst]. split; [reflexivity|].
    split; [rewrite Hw2; reflexivity|]. split; [exact Htx2|].
    split; [exact Heg2|]. rewrite Heg2. exact Hrest. }
  intros fuel' rset' wset' w3 errno' s4 w4 Hset' Hread' Hsend'.
  assert (Hself2 : self w2 = c) by (rewrite Hw2; reflexivity).
  destruct (ring_poll_send fuel' rset' wset' w2 w3 (M - N) errno' s4)
    as (Hcall' & Heg' & Htx').
  { rewrite Hself2. exact Hp. }
  { rewrite Hself2. exact Hc. }
  { rewrite Hself2. exact Hset'. }
  { exact Hread'. }
  { rewrite Hself2, Heg2. exact Hsend'. }
  { rewrite Heg2. lia. }
  rewrite Hself2, Heg2, Hrest in Hcall'.
  subst w4. rewrite Hcall'. cbn [snd trace handler].
  split; [reflexivity|]. split.
  { cbn. rewrite Heg', Heg2. apply drop_ge. lia. }
  rewrite transmitted_app, Htx', Htx2. cbn.
  destruct (Z.ltb_spec 0 (M - N)); [|lia].
  rewrite app_nil_r, <- app_assoc. f_equal.
  replace (take (Z.to_nat (M - N)) rest) with rest
    by (symmetry; apply take_ge; lia).
  subst rest. apply take_drop.
Qed.

(** On the ring, with a [recv] that respects its length, every commit of
    the read loop is accepted: the used ingress bytes grow by exactly the
    lengths committed. *)
Lemma ring_read_loop_used fuel : forall w f w',
  recv_within_request (W := W) ->
  connected (self w) = true ->
  read_loop fuel w = (f, w') ->
  exists evs,
    trace w' = trace w ++ evs /\
    ingress_used (handler w') = ingress_used (handler w) + committed_total evs /\
    ingress_capacity (handler w') = ingress_capacity (handler w).
Proof.
  induction fuel as [|fuel IH]; intros w f w' Hrecv Hc Hrun.
  - inversion Hrun; subst. exists []. rewrite app_nil_r.
    split; [reflexivity|]. split; [cbn; lia|reflexivity].
  - cbn [read_loop] in Hrun. unfold_monad. rewrite Hc in Hrun.
    cbn [get_read_buffer_available zero_copy_reserve_read_buffer_data
         commit_read_buffer_data buffer_error ring_handler andb] in Hrun.
    destruct (Z.ltb_spec 0 (ring_free (handler w))) as [Ha|Ha].
    2:{ inversion Hrun; subst. exists []. rewrite app_nil_r.
        split; [reflexivity|]. split; [cbn; lia|reflexivity]. }
    unfold ring_reserve in Hrun. cbn [fst snd handler self sys trace] in Hrun.
    set (len := to_size_t (Z.max 0 (Z.min (ring_free (handler w))
                                          (ring_free (handler w))))) in *.
    assert (Hlen : 0 <= len <= ring_free (handler w)).
    { subst len. unfold to_size_t. split; [apply Z.mod_pos_bound; lia|].
      etransitivity; [apply Z.mod_le; lia|]. lia. }
    assert (Hzero : ring_commit 0 (handler w) = (true, handler w)).
    { unfold ring_commit. destruct (Z.leb_spec 0 (ring_free (handler w))); [|lia].
      cbn. destruct (handler w); cbn. rewrite Z.add_0_r. reflexivity. }
    destruct (Z.leb_spec len 0) as [Hl|Hl];
      cbn [fst snd handler self sys trace] in Hrun.
    { rewrite Hzero in Hrun. inversion Hrun; subst. cbn [trace handler].
      eexists. rewrite <- app_assoc. split; [reflexivity|].
      cbn. split; [lia|reflexivity]. }
    destruct (sys_recv (cli_fd (self w)) len (sys w)) as [[r errno] s1] eqn:Es.
    cbn [fst snd handler self sys trace] in Hrun.
    pose proof (recv_contract _ _ _ _ _ _ Hrecv Es) as Hb.
    destruct (Z.ltb_spec r 0) as [Hr|Hr]; [|destruct (Z.eqb_spec r 0) as [Hz|Hz]];
      cbn [fst snd handler self sys trace] in Hrun.
    1: destruct (retryable errno); cbn [fst snd handler self sys trace] in Hrun.
    1-3: rewrite Hzero in Hrun; cbn [fst snd handler self sys trace] in Hrun;
         rewrite ?disconnect_eq in Hrun;
         cbn [fst snd handler self sys trace] in Hrun;
         inversion Hrun; subst; cbn [trace handler];
         eexists; rewrite <- ?app_assoc; (split; [reflexivity|]);
         rewrite ?Hc, ?orb_true_r;
         try (destruct (close_events_cases (self w)) as [-> | ->]); cbn;
         (split; [lia|reflexivity]).
    unfold ring_commit in Hrun.
    destruct (Z.leb_spec 0 r); [|lia].
    destruct (Z.leb_spec r (ring_free (handler w))); [|lia].
    cbn [andb fst snd negb handler self sys trace] in Hrun.
    apply IH in Hrun as (evs & Htr & Hused & Hcap); [|exact Hrecv|exact Hc].
    cbn [fst snd handler self sys trace ingress_used ingress_capacity] in *.
    eexists. rewrite Htr, <- !app_assoc. split; [reflexivity|].
    rewrite Hused, Hcap. cbn. split; [lia|reflexivity].
Qed.

(** The whole call on the ring: the used ingress bytes grow by the sum of
    the positive [recv] results. *)
Lemma ring_ingress_growth fuel (rset wset : fd_set) w :
  recv_within_request (W := W) ->
  exists evs,
    trace (snd (pollable_poll fuel rset wset w)) = trace w ++ evs /\
    ingress_used (handler (snd (pollable_poll fuel rset wset w)))
      = ingress_used (handler w) + positive_recv_total evs.
Proof.
  intros Hrecv. rewrite pollable_poll_unfold.
  destruct (pending_connect (self w)).
  { rewrite poll_pending_eq. cbv zeta.
    destruct (FD_ISSET _ _); [|exists []; rewrite app_nil_r; cbn; split; [reflexivity|lia]].
    destruct (sys_getsockopt_so_error _ _) as [[r e] s1].
    destruct (_ || _); cbn [snd trace handler]; eexists; (split; [reflexivity|]);
      try (destruct (close_events_cases (self w)) as [-> | ->]); cbn; lia. }
  destruct (connected (self w)) eqn:Hc; cbn [negb].
  2:{ exists []. rewrite app_nil_r. cbn. split; [reflexivity|lia]. }
  (* the read block *)
  assert (Hread : exists evs w1 f,
             poll_read fuel rset w = (f, w1) /\
             trace w1 = trace w ++ evs /\
             (f = Some Fallthrough -> self w1 = self w) /\
             ingress_used (handler w1)
               = ingress_used (handler w) + positive_recv_total evs).
  { destruct (poll_read_run fuel rset w Hc)
      as (st & pre & run & w1 & Hrun & Htr & Hpre & _ & Hshape & Hself & _).
    exists (pre ++ run), w1, (flow_of_stop st).
    split; [exact Hrun|]. split; [exact Htr|]. split.
    { destruct st; cbn; intros E; try discriminate; exact Hself. }
    rewrite positive_recv_total_app, <- (loop_run_totals _ _ _ Hshape).
    unfold poll_read in Hrun. unfold_monad.
    destruct (FD_ISSET (cli_fd (self w)) rset).
    2:{ inversion Hrun; subst. rewrite <- (app_nil_r (trace w1)) in Htr at 1.
        apply app_inv_head in Htr. symmetry in Htr.
        apply app_eq_nil in Htr as [-> ->]. cbn. lia. }
    cbn [get_read_buffer_available trigger_read_callback ring_handler] in Hrun.
    destruct (ring_free (handler w) =? 0);
      cbn [fst snd handler self sys trace] in Hrun;
      apply ring_read_loop_used in Hrun as (evs & Htr' & Hused & _);
      try exact Hrecv; try exact Hc;
      cbn [fst snd handler self sys trace ring_hint ingress_used] in *;
      rewrite Htr in Htr'; rewrite <- ?app_assoc in Htr';
      apply app_inv_head in Htr'.
    - destruct Hpre as [-> | ->]; cbn in Htr'.
      + subst run. cbn in *. lia.
      + inversion Htr'; subst. cbn. lia.
    - destruct Hpre as [-> | ->]; cbn in Htr'.
      + subst run. cbn. lia.
      + subst evs. cbn in *. lia. }
  destruct Hread as (evs & w1 & f & Hrun & Htr & Hself & Hused).
  rewrite Hrun.
  destruct f as [[|r]|]; cbn [snd]; try (exists evs; split; assumption).
  (* the write block *)
  rewrite poll_write_eq. cbv zeta.
  destruct (_ && _ && _).
  2:{ exists evs. split; assumption. }
  cbn [zero_copy_peek_write_buffer_data peek_free_write_buffer_data
       consume_write_buffer_data buffer_error ring_handler].
  destruct (sys_send _ _ _) as [[r errno] s1].
  destruct (r <? 0); [destruct (retryable errno)|destruct (r =? 0)];
    cbn [snd trace handler]; eexists; rewrite Htr, <- ?app_assoc;
    (split; [reflexivity|]); rewrite !positive_recv_total_app;
    try (destruct (close_events_cases (self w1)) as [-> | ->]);
    cbn; lia.
Qed.

End RingProperties.

(** * Concrete runs *)

Lemma script_recv_within_request : recv_within_request (W := script).
Proof.
  intros fd len s. cbn. destruct (next_reply s) as [[r e] s']. cbn. lia.
Qed.

(** The scenario of the spec: 9000 bytes of ingress capacity and two
    receives of 4000 bytes with no consumer drain; the third reservation
    is 1000 bytes. *)
Example reservations_shrink :
  trace (snd (pollable_poll 10 {[5]} ∅
                (connected_world ring0 [(4000, 0); (4000, 0); (-1, EAGAIN)])))
  = [EvReserve 9000 9000; EvRecv 5 9000 4000 0; EvCommit 4000 true;
     EvReserve 5000 5000; EvRecv 5 5000 4000 0; EvCommit 4000 true;
     EvReserve 1000 1000; EvRecv 5 1000 (-1) EAGAIN; EvCommit 0 true].
Proof. vm_compute. reflexivity. Qed.

(** C1.  [connect] called on a client that is still connecting (descriptor
    5, gps-a:2947) is not refused: it returns 0, overwrites [host], [port]
    and [cli_fd] with the new endpoint and the new socket 6, and never
    closes descriptor 5. *)
Theorem connect_while_connecting_restarts :
  let w := connecting_world [(0, 0); (6, 0); (-1, EINPROGRESS)] in
  let '(r, w') := connect "gps-b" 10110 w in
  r = 0 /\
  host (self w') = "gps-b" /\ port (self w') = 10110 /\ cli_fd (self w') = 6 /\
  pending_connect (self w') = true /\
  trace w' = [EvGethostbyname "gps-b" true; EvSocket 6; EvFcntlGetfl 6;
              EvFcntlSetfl 6 (Z.lor (Z.lor 0 O_NONBLOCK) FD_CLOEXEC);
              EvConnect 6 (SockaddrIn 2 [Byte.x7f; Byte.x00; Byte.x00; Byte.x01]
                                      (htons 10110)) (-1) EINPROGRESS] /\
  existsb is_close (trace w') = false.
Proof. vm_compute. repeat split; reflexivity. Qed.

(** C2, on a run with two partial reads and a would-block. *)
Lemma commits_match_receives_witness :
  let w := connected_world ring0 [(4000, 0); (4000, 0); (-1, EAGAIN)] in
  recv_within_request (W := script) /\
  exists evs,
    trace (snd (pollable_poll 10 {[5]} ∅ w)) = trace w ++ evs /\
    committed_total evs = positive_recv_total evs /\
    commits_within_reservation 0 evs = true.
Proof.
  split; [exact script_recv_within_request|].
  exact (commits_match_receives 10 {[5]} ∅ _ script_recv_within_request).
Defined.

(** C4, on a completed connect and on a peer that reset the connection
    (errno 111): one [getsockopt], then either nothing or the report and
    the [close]. *)
Lemma connect_completion_witness :
  (pending_connect (self (connecting_world [(0, 0)])) = true /\
   FD_ISSET 5 {[5]} = true /\ 0 <= 5) /\
  pollable_poll 1 {[5]} {[5]} (connecting_world [(0, 0)]) =
    (Some 0,
     World (TcpClient "gps-a" 2947 5 false true None sockaddr_zero) ring0 []
           [EvGetsockopt 5 0 0]) /\
  pollable_poll 1 {[5]} {[5]} (connecting_world [(0, 111)]) =
    (Some 0,
     World (TcpClient "gps-a" 2947 (-1) false false None sockaddr_zero)
           (ring_error (msg_connect_failed "gps-a" 2947 111) ring0) []
           [EvGetsockopt 5 0 111;
            EvBufferError (msg_connect_failed "gps-a" 2947 111);
            EvClose 5]).
Proof.
  assert (Hset : FD_ISSET 5 {[5]} = true) by (vm_compute; reflexivity).
  split; [split; [reflexivity|split; [exact Hset|lia]]|].
  split.
  - exact (connect_completion 1 {[5]} {[5]} (connecting_world [(0, 0)])
             eq_refl Hset ltac:(cbn; lia)).
  - exact (connect_completion 1 {[5]} {[5]} (connecting_world [(0, 111)])
             eq_refl Hset ltac:(cbn; lia)).
Defined.

(** C5 as stated fails: the descriptor is read-ready too and the peer has
    closed; the three pending bytes are write-ready but no [send] is
    issued, and they are still in the ring when the client has
    disconnected. *)
Lemma remote_close_preempts_send :
  let w := connected_world (Ring 9000 0 three_bytes [] 0) [(0, 0)] in
  let '(r, w') := pollable_poll 10 {[5]} {[5]} w in
  FD_ISSET 5 {[5]} = true /\ connected (self w) = true /\
  egress (handler w) = three_bytes /\
  r = Some 0 /\
  existsb is_send (trace w') = false /\
  egress (handler w') = three_bytes /\
  connected (self w') = false.
Proof. vm_compute. repeat split; reflexivity. Qed.

(** C5, on three pending bytes: the first [send] moves two, the second the
    last one. *)
Lemma short_send_keeps_remainder_witness :
  let w := connected_world (Ring 9000 0 three_bytes [] 0) [(2, 0); (1, 0)] in
  let w2 := snd (pollable_poll 1 ∅ {[5]} w) in
  let w4 := snd (pollable_poll 1 ∅ {[5]} w2) in
  (poll_read 1 ∅ w = (Some Fallthrough, w) /\
   sys_send 5 three_bytes (sys w) = (2, 0, [(1, 0)]) /\
   0 < 2 < Z.of_nat (length three_bytes)) /\
  egress (handler w2) = [Byte.x50] /\
  egress (handler w4) = [] /\
  transmitted (trace w4) = three_bytes.
Proof.
  intros w w2 w4.
  assert (Hset : FD_ISSET 5 {[5]} = true) by (vm_compute; reflexivity).
  assert (Hread : poll_read 1 ∅ w = (Some Fallthrough, w))
    by (vm_compute; reflexivity).
  assert (Hsend : sys_send 5 three_bytes (sys w) = (2, 0, [(1, 0)]))
    by reflexivity.
  assert (HN : 0 < 2 < Z.of_nat (length three_bytes))
    by (unfold three_bytes; cbn; lia).
  destruct (short_send_keeps_remainder 1 ∅ {[5]} w w 2 0 [(1, 0)]
              eq_refl eq_refl Hset Hread Hsend HN) as [Hfirst Hnext].
  destruct Hfirst as (_ & _ & _ & Heg & _).
  assert (Hread2 : poll_read 1 ∅ w2 = (Some Fallthrough, w2))
    by (vm_compute; reflexivity).
  assert (Hsend2 : sys_send 5 (drop (Z.to_nat 2) three_bytes) (sys w2)
                   = (Z.of_nat (length three_bytes) - 2, 0, []))
    by (vm_compute; reflexivity).
  destruct (Hnext 1%nat ∅ {[5]} w2 0 [] Hset Hread2 Hsend2) as (_ & Heg4 & Htx).
  split; [split; [exact Hread|split; [exact Hsend|exact HN]]|].
  split; [exact Heg|]. split; [exact Heg4|exact Htx].
Defined.

(** C6 as stated fails: a name that does not resolve makes [connect]
    return -1 after an [_MSG_ERROR]; nothing reaches the error channel of
    the ring. *)
Lemma resolution_failure_bypasses_error_channel :
  let w := closed_world [(-1, 0)] in
  let '(r, w') := connect "nowhere" 2947 w in
  r = -1 /\
  trace w' = [EvGethostbyname "nowhere" false; EvMsgError (msg_resolve "nowhere")] /\
  existsb is_buffer_error (trace w') = false /\
  error_channel (handler w') = [].
Proof. vm_compute. repeat split; reflexivity. Qed.

(** C7 as stated fails: when [socket] fails (errno 24) the client fresh
    from its constructor has already taken over the requested host and
    port. *)
Lemma socket_failure_overwrites_endpoint :
  let w := closed_world [(0, 0); (-1, 24)] in
  let '(r, w') := connect "gps.local" 2947 w in
  r = -1 /\
  trace w' = [EvGethostbyname "gps.local" true; EvSocket (-1);
              EvMsgError (msg_connect_failed "gps.local" 2947 24)] /\
  host (self w) = EmptyString /\ host (self w') = "gps.local" /\
  port (self w) = 0 /\ port (self w') = 2947.
Proof. vm_compute. repeat split; reflexivity. Qed.

(** C7, on a name that does not resolve and on a failing [socket]. *)
Lemma connect_early_failure_witness :
  ((pending_connect (self (closed_world [(-1, 0)])) = false /\
    connected (self (closed_world [(-1, 0)])) = false) /\
   let '(r, w') := connect "nowhere" 2947 (closed_world [(-1, 0)]) in
   r = -1 /\ self w' = tcp_client_v2_new /\
   trace w' = [EvGethostbyname "nowhere" false; EvMsgError (msg_resolve "nowhere")]) /\
  ((pending_connect (self (closed_world [(0, 0); (-1, 24)])) = false /\
    connected (self (closed_world [(0, 0); (-1, 24)])) = false) /\
   let '(r, w') := connect "gps.local" 2947 (closed_world [(0, 0); (-1, 24)]) in
   r = -1 /\ host (self w') = "gps.local" /\ port (self w') = 2947 /\
   cli_fd (self w') = -1 /\
   pending_connect (self w') = false /\ connected (self w') = false /\
   trace w' = [EvGethostbyname "gps.local" true; EvSocket (-1);
               EvMsgError (msg_connect_failed "gps.local" 2947 24)]).
Proof.
  split; (split; [split; reflexivity|]).
  - pose proof (connect_early_failure "nowhere" 2947 (closed_world [(-1, 0)])
                  eq_refl eq_refl) as P.
    vm_compute in P. vm_compute. destruct P as (? & _ & _ & _ & _ & _ & _ & ?).
    repeat split; assumption.
  - pose proof (connect_early_failure "gps.local" 2947
                  (closed_world [(0, 0); (-1, 24)]) eq_refl eq_refl) as P.
    vm_compute in P. vm_compute.
    destruct P as (? & ? & ? & ? & ? & ? & _ & ?).
    repeat split; assumption.
Defined.

(** C8, on a ring with three free bytes: two chunks fill it and the loop
    stops on its condition. *)
Lemma read_loop_terminates_witness :
  let w := connected_world (Ring 3 0 [] [] 0) [(2, 0); (5, 0)] in
  (commit_consumes_space (H := ring) /\ connected (self w) = true /\
   Z.max 0 (get_read_buffer_available (handler w)) < Z.of_nat 4) /\
  exists st evs w',
    read_loop 4 w = (flow_of_stop st, w') /\
    st <> StopFuel /\
    trace w' = trace w ++ evs /\
    loop_run (self w) evs st /\
    zero_reservation_breaks evs = true /\
    match st with
    | StopCondition => get_read_buffer_available (handler w') <= 0
    | _ => True
    end.
Proof.
  intros w.
  assert (Hlaw : commit_consumes_space (H := ring))
    by exact ring_commit_consumes_space.
  assert (Hfuel : Z.max 0 (get_read_buffer_available (handler w)) < Z.of_nat 4)
    by (vm_compute; reflexivity).
  split; [split; [exact Hlaw|split; [reflexivity|exact Hfuel]]|].
  exact (read_loop_terminates 4 w Hlaw eq_refl Hfuel).
Defined.

Lemma stream_recv_within_request : recv_within_request (W := stream).
Proof. intros fd len s. cbn. lia. Qed.

(** On a drained buffer with a peer that never stops sending, every round
    of the loop receives and commits one byte and leaves the loop
    condition true. *)
Lemma drained_read_loop fuel : forall c d n tr,
  connected c = true ->
  exists tr',
    read_loop fuel (World c (Drained 9000 d) (Stream n) tr) =
    (None, World c (Drained 9000 (d + Z.of_nat fuel))
                 (Stream (n + Z.of_nat fuel)) tr').
Proof.
  induction fuel as [|fuel IH]; intros c d n tr Hc.
  - exists tr. cbn. rewrite !Z.add_0_r. reflexivity.
  - cbn [read_loop]. unfold_monad. cbn [self handler sys trace fst snd].
    rewrite Hc. cbn.
    change (to_size_t (Z.max 0 (Z.min 9000 9000))) with 9000. cbn.
    change (Z.min 1 9000) with 1. cbn.
    destruct (IH c (d + 1) (n + 1)
                (((tr ++ [EvReserve 9000 9000]) ++ [EvRecv (cli_fd c) 9000 1 0])
                   ++ [EvCommit 1 true]) Hc) as (tr' & ->).
    exists tr'. do 3 f_equal; lia.
Qed.

(** C8 as stated fails: on a drained buffer with a peer that never stops
    sending, no [recv] blocks, fails or reports the remote close, no
    commit is refused and free space never runs out, so no number of
    rounds ends the loop: after [fuel] rounds the client is still
    connected, [fuel] bytes have been received and delivered, and all of
    the capacity is free again. *)
Lemma drained_buffer_never_stops :
  connected (self drained_world) = true /\
  recv_within_request (W := stream) /\
  forall fuel, exists w',
    read_loop fuel drained_world = (None, w') /\
    pollable_poll fuel {[5]} ∅ drained_world = (None, w') /\
    loop_run (self drained_world) (trace w') StopFuel /\
    connected (self w') = true /\
    received (sys w') = Z.of_nat fuel /\
    delivered (handler w') = Z.of_nat fuel /\
    get_read_buffer_available (handler w') = 9000.
Proof.
  split; [reflexivity|]. split; [exact stream_recv_within_request|].
  intros fuel.
  destruct (drained_read_loop fuel (self drained_world) 0 0 [] eq_refl)
    as (tr' & Hrun).
  change (World (self drained_world) (Drained 9000 0) (Stream 0) [])
    with drained_world in Hrun.
  eexists. split; [exact Hrun|]. split.
  { unfold pollable_poll, poll_read. unfold_monad.
    cbn [self handler sys trace fst snd drained_world pending_connect
         connected cli_fd negb].
    change (FD_ISSET 5 {[5]}) with true. cbn. 
    change (World _ (Drained 9000 0) (Stream 0) []) with drained_world.
    rewrite Hrun. reflexivity. }
  split.
  { destruct (read_loop_run fuel drained_world eq_refl)
      as (st & evs & w1 & Hrun1 & Htr & Hshape & _).
    rewrite Hrun in Hrun1. inversion Hrun1 as [[Hst Hw]].
    destruct st; try discriminate. subst w1. cbn in Htr.
    rewrite Htr. exact Hshape. }
  cbn. repeat split; lia.
Qed.

(** C10, on the handler that refuses every commit: one byte is received,
    its commit is refused, the descriptor is closed; no [buffer_error]
    and, although the descriptor is write-ready with pending egress, no
    [send]. *)
Lemma refused_commit_disconnects_witness :
  let w := refusing_world [(1, 0)] in
  let evs := [EvReserve 1 1; EvRecv 5 1 1 0; EvCommit 1 false; EvClose 5] in
  (trace (snd (pollable_poll 3 {[5]} {[5]} w)) = trace w ++ evs /\
   In (EvCommit 1 false) evs /\ 0 < 1) /\
  fst (pollable_poll 3 {[5]} {[5]} w) = Some 0 /\
  self (snd (pollable_poll 3 {[5]} {[5]} w)) = disconnected (self w) /\
  exists pre,
    evs = pre ++ EvCommit 1 false :: close_events (self w) /\
    forallb quiet pre = true.
Proof.
  intros w evs.
  assert (Htr : trace (snd (pollable_poll 3 {[5]} {[5]} w)) = trace w ++ evs)
    by (vm_compute; reflexivity).
  assert (Hin : In (EvCommit 1 false) evs) by (cbn; auto).
  split; [split; [exact Htr|split; [exact Hin|lia]]|].
  exact (refused_commit_disconnects 3 {[5]} {[5]} w 1 evs Htr Hin ltac:(lia)).
Defined.

(** * Further properties of the client *)

Section ClientInvariants.
Context {H W : Type} `{BH : BufferHandler H} `{OS : Sockets W}.

Implicit Types (w : world H W) (c : tcp_client_v2).

Lemma count_events_app p a b :
  count_events p (a ++ b) = (count_events p a + count_events p b)%nat.
Proof. induction a as [|e a IH]; cbn; [reflexivity|]. rewrite IH. lia. Qed.

Lemma count_close_events c :
  count_events is_close (close_events c) = length (close_events c) /\
  count_events is_buffer_error (close_events c) = 0%nat.
Proof. destruct (close_events_cases c) as [-> | ->]; cbn; auto. Qed.

(** Errors and closes of a run of the read loop, by the way it stopped. *)
Lemma loop_run_counts c evs st :
  loop_run c evs st ->
  match st with
  | StopReadError | StopRemoteClosed =>
      count_events is_buffer_error evs = 1%nat /\
      count_events is_close evs = length (close_events c)
  | StopCommitRefused =>
      count_events is_buffer_error evs = 0%nat /\
      count_events is_close evs = length (close_events c)
  | _ =>
      count_events is_buffer_error evs = 0%nat /\
      count_events is_close evs = 0%nat
  end.
Proof.
  induction 1; cbn; auto;
    try (destruct (count_close_events c) as [-> ->]; auto).
Qed.

(** What one service call does to the members, and how many errors and
    closes it issues: nothing, or the completion of a pending connect, or
    a disconnect with at most one [buffer_error]. *)
Lemma pollable_poll_outcome fuel (rset wset : fd_set) w :
  exists r w' evs,
    pollable_poll fuel rset wset w = (r, w') /\
    trace w' = trace w ++ evs /\
    ((self w' = self w /\
      count_events is_buffer_error evs = 0%nat /\
      count_events is_close evs = 0%nat) \/
     (pending_connect (self w) = true /\
      self w' = set_pending_connect false (set_connected true (self w)) /\
      count_events is_buffer_error evs = 0%nat /\
      count_events is_close evs = 0%nat) \/
     (active (self w) = true /\
      self w' = disconnected (self w) /\
      (count_events is_buffer_error evs <= 1)%nat /\
      count_events is_close evs = length (close_events (self w)))).
Proof.
  rewrite pollable_poll_unfold. unfold active.
  destruct (pending_connect (self w)) eqn:Hp.
  { rewrite poll_pending_eq. cbv zeta.
    destruct (FD_ISSET (cli_fd (self w)) wset).
    2:{ exists (Some 0), w, []. rewrite app_nil_r. auto 10. }
    destruct (sys_getsockopt_so_error _ _) as [[rc e] s1].
    destruct ((rc <? 0) || negb (e =? 0)).
    - eexists _, _, _. split; [reflexivity|]. split; [reflexivity|].
      right; right. cbn [self]. rewrite orb_true_r.
      split; [reflexivity|]. split; [reflexivity|]. cbn.
      destruct (count_close_events (self w)) as [-> ->]. split; lia.
    - eexists _, _, _. split; [reflexivity|]. split; [reflexivity|].
      right; left. cbn. auto. }
  destruct (connected (self w)) eqn:Hc; cbn [negb].
  2:{ exists (Some 0), w, []. rewrite app_nil_r. auto 10. }
  destruct (poll_read_run fuel rset w Hc)
    as (st & pre & run & w1 & Hrun & Htr & Hpre & _ & Hshape & Hself & _).
  rewrite Hrun.
  pose proof (loop_run_counts _ _ _ Hshape) as Hcnt.
  assert (Hpre0 : count_events is_buffer_error pre = 0%nat /\
                  count_events is_close pre = 0%nat)
    by (destruct Hpre as [-> | ->]; cbn; auto).
  destruct Hpre0 as [Hpb Hpc].
  destruct st; cbn [flow_of_stop]; destruct Hcnt as [Hb Hcl].
  4-6: exists (Some 0), w1, (pre ++ run); (split; [reflexivity|]);
       (split; [exact Htr|]); right; right; cbn [orb];
       (split; [reflexivity|]); (split; [exact Hself|]);
       rewrite !count_events_app, Hpb, Hpc, Hb, Hcl; split; cbn; lia.
  4: exists None, w1, (pre ++ run); (split; [reflexivity|]);
     (split; [exact Htr|]); left; (split; [exact Hself|]);
     rewrite !count_events_app, Hpb, Hpc, Hb, Hcl; auto.
  all: rewrite poll_write_eq; cbv zeta; rewrite Hself, Hc; cbn [andb];
    destruct (FD_ISSET (cli_fd (self w)) wset && negb (get_write_buffer_used (handler w1) =? 0));
    [|exists (Some 0), w1, (pre ++ run); (split; [reflexivity|]);
      (split; [exact Htr|]); left; (split; [exact Hself|]);
      rewrite !count_events_app, Hpb, Hpc, Hb, Hcl; auto];
    destruct (zero_copy_peek_write_buffer_data _ _) as [buf h1];
    destruct (sys_send _ _ _) as [[r errno] s1];
    (destruct (r <? 0); [destruct (retryable errno)|destruct (r =? 0)]);
    eexists _, _, _; (split; [reflexivity|]); cbn [trace self];
    (split; [rewrite Htr, <- !app_assoc; reflexivity|]);
    rewrite !count_events_app, Hpb, Hpc, Hb, Hcl; cbn;
    try (destruct (count_close_events (self w)) as [-> ->]);
    first [ left; split; [reflexivity|]; split; lia
          | right; right; split; [reflexivity|]; split; [reflexivity|]; split; lia ].
Qed.

Lemma count_events_in p e evs :
  In e evs -> p e = true -> (1 <= count_events p evs)%nat.
Proof.
  induction evs as [|a evs IH]; cbn; [tauto|].
  intros [-> | Hin] Hp; [rewrite Hp; lia|]. specialize (IH Hin Hp). lia.
Qed.

Lemma merge_set_inactive (m : Z) (rset wset : fd_set) w :
  active (self w) = false ->
  pollable_merge_set m rset wset w = ((m, rset, wset), w).
Proof.
  unfold active. intros Ha. apply orb_false_iff in Ha as [Hc Hp].
  unfold pollable_merge_set. unfold_monad. rewrite Hp, Hc. reflexivity.
Qed.

Lemma poll_inactive fuel (rset wset : fd_set) w :
  active (self w) = false ->
  pollable_poll fuel rset wset w = (Some 0, w).
Proof.
  unfold active. intros Ha. apply orb_false_iff in Ha as [Hc Hp].
  rewrite pollable_poll_unfold, Hp, Hc. reflexivity.
Qed.

(** X1. [get_connected] changes nothing, and it answers true exactly when
    [pollable_merge_set] would register the descriptor: merged into empty
    sets, the descriptor is in the read or the write set if and only if
    [get_connected] is true. *)
Theorem get_connected_iff_registers (m : Z) w :
  let '(b, w1) := get_connected w in
  let '(_, rset, wset, w2) := pollable_merge_set m ∅ ∅ w in
  w1 = w /\ w2 = w /\
  (b = true <-> cli_fd (self w) ∈ rset ∪ wset) /\
  (b = false <-> rset ∪ wset = ∅).
Proof.
  destruct w as [[h p fd pc cn ch cs] hd s t].
  unfold get_connected, pollable_merge_set. unfold_monad. cbn.
  destruct pc, cn; cbn;
    repeat match goal with
      | |- context [if ?b then _ else _] => destruct b
      end; cbn;
    (split; [reflexivity|]); (split; [reflexivity|]);
    split; split; intros Hx; try reflexivity; try discriminate;
    try set_solver.
Qed.

(** X2. A client for which [get_connected] answers false is inert:
    [pollable_merge_set] returns the maximum and both sets as it got them,
    a service call returns 0, and neither touches the client, the handler,
    the socket layer or the trace. *)
Theorem inactive_client_is_inert fuel (m : Z) (rset wset : fd_set) w :
  fst (get_connected w) = false ->
  pollable_merge_set m rset wset w = ((m, rset, wset), w) /\
  pollable_poll fuel rset wset w = (Some 0, w).
Proof.
  intros Hg.
  assert (Ha : active (self w) = false).
  { unfold get_connected in Hg. unfold_monad. unfold active.
    destruct (connected (self w) || pending_connect (self w));
      [discriminate|reflexivity]. }
  split; [apply merge_set_inactive|apply poll_inactive]; exact Ha.
Qed.

(** X3. A service call for which the descriptor is in neither ready set
    does nothing at all, whatever the state of the client: it returns 0
    and leaves client, handler, socket layer and trace as they were. *)
Theorem unready_descriptor_no_op fuel (rset wset : fd_set) w :
  FD_ISSET (cli_fd (self w)) rset = false ->
  FD_ISSET (cli_fd (self w)) wset = false ->
  pollable_poll fuel rset wset w = (Some 0, w).
Proof.
  intros Hr Hw. rewrite pollable_poll_unfold.
  destruct (pending_connect (self w)).
  { rewrite poll_pending_eq. cbv zeta. rewrite Hw. reflexivity. }
  destruct (connected (self w)) eqn:Hc; [|reflexivity]. cbn [negb].
  unfold poll_read. unfold_monad. rewrite Hr.
  rewrite poll_write_eq. cbv zeta. rewrite Hw, andb_false_r. reflexivity.
Qed.

(** The paths of [connect]: refused, name not resolved, no socket, and,
    with a socket, in progress, failed or connected. *)
Lemma connect_outcome in_host in_port w :
  exists r w' evs,
    connect in_host in_port w = (r, w') /\
    trace w' = trace w ++ evs /\
    ((connected (self w) = true /\ r = -1 /\ self w' = self w /\
      evs = [EvMsgError (msg_already_connected in_host in_port (self w))]) \/
     (connected (self w) = false /\ r = -1 /\
      self w' = set_client_host None (self w) /\
      evs = [EvGethostbyname in_host false; EvMsgError (msg_resolve in_host)]) \/
     (connected (self w) = false /\
      exists fd errno,
        fd < 0 /\ r = -1 /\
        cli_fd (self w') = fd /\
        pending_connect (self w') = pending_connect (self w) /\
        connected (self w') = false /\
        evs = [EvGethostbyname in_host true; EvSocket fd;
               EvMsgError (msg_connect_failed in_host in_port errno)]) \/
     (connected (self w) = false /\
      exists fd fl addr rc e,
        0 <= fd /\ sin_port addr = htons in_port /\
        let pre := [EvGethostbyname in_host true; EvSocket fd; EvFcntlGetfl fd;
                    EvFcntlSetfl fd (Z.lor (Z.lor fl O_NONBLOCK) FD_CLOEXEC);
                    EvConnect fd addr rc e] in
        ((rc < 0 /\ e = EINPROGRESS /\ r = 0 /\
          cli_fd (self w') = fd /\ pending_connect (self w') = true /\
          connected (self w') = false /\ evs = pre) \/
         (rc < 0 /\ e <> EINPROGRESS /\ r = -1 /\
          cli_fd (self w') = -1 /\ pending_connect (self w') = false /\
          connected (self w') = false /\
          evs = pre ++ [EvMsgError (msg_connect_failed in_host in_port e);
                        EvClose fd; EvBufferError empty_message]) \/
         (0 <= rc /\ r = 0 /\
          cli_fd (self w') = fd /\ pending_connect (self w') = false /\
          connected (self w') = true /\ evs = pre)))).
Proof.
  rewrite connect_eq. cbv zeta.
  destruct (connected (self w)) eqn:Hc.
  { eexists _, _, _. split; [reflexivity|]. split; [reflexivity|].
    left. destruct w as [[]]. cbn in *. auto. }
  destruct (sys_gethostbyname in_host (sys w)) as [[ent|] s1].
  2:{ eexists _, _, _. split; [reflexivity|]. split; [reflexivity|].
      right; left. auto. }
  destruct (sys_socket s1) as [[fd errno] s2].
  destruct (Z.ltb_spec fd 0) as [Hfd|Hfd].
  { eexists _, _, _. split; [reflexivity|]. split; [reflexivity|].
    right; right; left. split; [reflexivity|]. exists fd, errno. cbn. auto 10. }
  destruct (sys_fcntl_getfl fd s2) as [fl s3].
  destruct (sys_connect _ _ _) as [[rc e] s5].
  destruct (Z.ltb_spec rc 0) as [Hrc|Hrc];
    [destruct (Z.eqb_spec e EINPROGRESS) as [He|He]|];
    (eexists _, _, _; split; [reflexivity|]; split; [reflexivity|];
     right; right; right; split; [reflexivity|];
     exists fd, fl,
       (SockaddrIn (h_addrtype ent)
                   (take (Z.to_nat (h_length ent)) (default [] (head (h_addr_list ent))))
                   (htons in_port)), rc, e;
     split; [exact Hfd|]; split; [reflexivity|]; cbv zeta;
     cbn [self cli_fd pending_connect connected set_pending_connect
          set_connected set_cli_fd app]).
  - left. auto 10.
  - right; left. auto 10.
  - right; right. auto 10.
Qed.

(** X4. The two flags never hold together: a client fresh from its
    constructor has neither, and [connect], a service call and
    [disconnect] each keep them exclusive. *)
Theorem flags_stay_exclusive fuel (rset wset : fd_set) in_host in_port w :
  flags_exclusive (self w) ->
  flags_exclusive tcp_client_v2_new /\
  flags_exclusive (self (snd (connect in_host in_port w))) /\
  flags_exclusive (self (snd (pollable_poll fuel rset wset w))) /\
  flags_exclusive (self (snd (disconnect w))).
Proof.
  unfold flags_exclusive. intros Hx.
  split; [reflexivity|]. split; [|split].
  - destruct (connect_outcome in_host in_port w)
      as (r & w' & evs & -> & _ & Hcases). cbn [snd].
    destruct Hcases as [(_ & _ & -> & _) | [(_ & _ & -> & _) |
      [(_ & fd & errno & _ & _ & _ & _ & -> & _) |
       (_ & fd & fl & addr & rc & e & _ & _ & Hsub)]]];
      [exact Hx | exact Hx | apply andb_false_r |].
    cbv zeta in Hsub.
    destruct Hsub as [(_ & _ & _ & _ & _ & -> & _) |
      [(_ & _ & _ & _ & -> & _) | (_ & _ & _ & -> & _)]];
      [apply andb_false_r | reflexivity | reflexivity].
  - destruct (pollable_poll_outcome fuel rset wset w)
      as (r & w' & evs & -> & _ & Hcases). cbn [snd].
    destruct Hcases as [(-> & _) | [(_ & -> & _) | (_ & -> & _)]];
      [exact Hx | reflexivity | reflexivity].
  - rewrite disconnect_eq. reflexivity.
Qed.

(** X5. The descriptor is valid exactly when the client is connecting or
    connected: this holds for a client fresh from its constructor, and a
    service call and [disconnect] keep it. *)
Theorem descriptor_stays_matched fuel (rset wset : fd_set) w :
  descriptor_matches_state (self w) ->
  descriptor_matches_state tcp_client_v2_new /\
  descriptor_matches_state (self (snd (pollable_poll fuel rset wset w))) /\
  descriptor_matches_state (self (snd (disconnect w))).
Proof.
  unfold descriptor_matches_state. intros Hm.
  split; [reflexivity|]. split.
  - destruct (pollable_poll_outcome fuel rset wset w)
      as (r & w' & evs & -> & _ & Hcases). cbn [snd].
    destruct Hcases as [(-> & _) | [(Hp & -> & _) | (_ & -> & _)]];
      [exact Hm | | reflexivity].
    unfold active in *. rewrite Hp, orb_true_r in Hm. exact Hm.
  - rewrite disconnect_eq. reflexivity.
Qed.

(** X6. On a closed client with an invalid descriptor [connect] returns 0
    or -1, and the result tells the state: 0 leaves the client connecting
    or connected on a valid descriptor, -1 leaves it closed with an
    invalid descriptor.  After it the descriptor is again valid exactly
    when the client is active, and [get_connected] agrees with the
    result. *)
Theorem connect_result_matches_state in_host in_port w :
  active (self w) = false ->
  cli_fd (self w) < 0 ->
  let '(r, w') := connect in_host in_port w in
  ((r = 0 /\ 0 <= cli_fd (self w')) \/ (r = -1 /\ cli_fd (self w') < 0)) /\
  fst (get_connected w') = (r =? 0) /\
  descriptor_matches_state (self w').
Proof.
  intros Ha Hfd.
  assert (Hg : forall w', fst (get_connected w') = active (self w')).
  { intros w'. unfold get_connected, active. unfold_monad.
    destruct (connected (self w') || pending_connect (self w')); reflexivity. }
  destruct (connect_outcome in_host in_port w)
    as (r & w' & evs & -> & _ & Hcases).
  rewrite Hg. unfold descriptor_matches_state, active in *.
  apply orb_false_iff in Ha as [Hc Hp].
  destruct Hcases as [(Hc' & _) | [(_ & -> & -> & _) |
    [(_ & fd & errno & Hneg & -> & Hcf & Hpf & Hcn & _) |
     (_ & fd & fl & addr & rc & e & Hpos & _ & Hsub)]]].
  - congruence.
  - cbn. rewrite Hc, Hp. destruct (Z.leb_spec 0 (cli_fd (self w))); [lia|].
    split; [right; split; [reflexivity|assumption]|]. auto.
  - rewrite Hcf, Hpf, Hcn, Hp. destruct (Z.leb_spec 0 fd); [lia|]. cbn. auto 10.
  - cbv zeta in Hsub.
    destruct Hsub as [(_ & _ & -> & Hcf & Hpf & Hcn & _) |
      [(_ & _ & -> & Hcf & Hpf & Hcn & _) | (_ & -> & Hcf & Hpf & Hcn & _)]];
      rewrite Hcf, Hpf, Hcn;
      try (destruct (Z.leb_spec 0 fd); [|lia]); cbn; auto 10.
    split; [right; split; [reflexivity|lia]|]. auto.
Qed.

Lemma nonblock_bit_set fl :
  Z.land (Z.lor (Z.lor fl O_NONBLOCK) FD_CLOEXEC) O_NONBLOCK = O_NONBLOCK.
Proof.
  apply Z.bits_inj'. intros n Hn.
  rewrite Z.land_spec, !Z.lor_spec.
  destruct (Z.testbit O_NONBLOCK n);
    rewrite ?andb_false_r, ?orb_true_r, ?andb_true_r; reflexivity.
Qed.

(** X7. [connect] does not leak the socket it creates: a descriptor that
    [socket] returned is either the descriptor of the client, which is
    then connecting or connected, or it was closed before [connect]
    returned. *)
Theorem connect_socket_not_leaked in_host in_port w evs fd :
  trace (snd (connect in_host in_port w)) = trace w ++ evs ->
  In (EvSocket fd) evs ->
  0 <= fd ->
  let c' := self (snd (connect in_host in_port w)) in
  (cli_fd c' = fd /\ active c' = true /\ fst (connect in_host in_port w) = 0) \/
  (In (EvClose fd) evs /\ active c' = false /\ fst (connect in_host in_port w) = -1).
Proof.
  intros Htr Hin Hfd.
  destruct (connect_outcome in_host in_port w)
    as (r & w' & evs' & Hrun & Htr' & Hcases).
  rewrite Hrun in *. cbn [fst snd] in *.
  rewrite Htr' in Htr. apply app_inv_head in Htr. subst evs'.
  unfold active.
  destruct Hcases as [(_ & _ & _ & ->) | [(_ & _ & _ & ->) |
    [(_ & fd' & errno & Hneg & _ & _ & _ & _ & ->) |
     (_ & fd' & fl & addr & rc & e & Hpos & _ & Hsub)]]].
  - cbn in Hin. intuition discriminate.
  - cbn in Hin. intuition discriminate.
  - cbn in Hin. destruct Hin as [?|[E|[?|[]]]]; try discriminate.
    inversion E; lia.
  - cbv zeta in Hsub.
    destruct Hsub as [(_ & _ & -> & Hcf & Hpf & Hcn & ->) |
      [(_ & _ & -> & Hcf & Hpf & Hcn & ->) | (_ & -> & Hcf & Hpf & Hcn & ->)]];
      cbn in Hin;
      repeat (destruct Hin as [E|Hin]; [try discriminate; inversion E; subst|]);
      try destruct Hin; rewrite ?Hcf, ?Hpf, ?Hcn; cbn; auto 10.
Qed.

(** X8. [connect] never issues a blocking connect: a [connect] system
    call is made on the descriptor that [socket] just returned, right
    after its flags were read and written back with [O_NONBLOCK] set, and
    towards the requested port in network byte order. *)
Theorem connect_sets_nonblocking_first in_host in_port w evs fd addr rc e :
  trace (snd (connect in_host in_port w)) = trace w ++ evs ->
  In (EvConnect fd addr rc e) evs ->
  exists flags post,
    evs = [EvGethostbyname in_host true; EvSocket fd; EvFcntlGetfl fd;
           EvFcntlSetfl fd flags; EvConnect fd addr rc e] ++ post /\
    Z.land flags O_NONBLOCK = O_NONBLOCK /\
    0 <= fd /\
    sin_port addr = htons in_port.
Proof.
  intros Htr Hin.
  destruct (connect_outcome in_host in_port w)
    as (r & w' & evs' & Hrun & Htr' & Hcases).
  rewrite Hrun in *. cbn [fst snd] in *.
  rewrite Htr' in Htr. apply app_inv_head in Htr. subst evs'.
  destruct Hcases as [(_ & _ & _ & ->) | [(_ & _ & _ & ->) |
    [(_ & fd' & errno & Hneg & _ & _ & _ & _ & ->) |
     (_ & fd' & fl & addr' & rc' & e' & Hpos & Hport & Hsub)]]];
    try (cbn in Hin; intuition discriminate).
  cbv zeta in Hsub.
  destruct Hsub as [(_ & _ & _ & _ & _ & _ & ->) |
    [(_ & _ & _ & _ & _ & _ & ->) | (_ & _ & _ & _ & _ & ->)]];
    cbn in Hin;
    repeat (destruct Hin as [E|Hin]; [try discriminate; inversion E; subst|]);
    try destruct Hin;
    eexists _, _; (split; [reflexivity|]);
    (split; [apply nonblock_bit_set|]); auto.
Qed.

(** X9. Calling [connect] on a closed client and then destroying the
    client leaves no descriptor open: in the events of the two calls
    every descriptor that [socket] returned is closed exactly once, at
    most one socket is created, and the client ends closed. *)
Theorem connect_destroy_balanced in_host in_port w evs fd :
  active (self w) = false ->
  let w1 := snd (connect in_host in_port w) in
  let w2 := snd (tcp_client_v2_destroy w1) in
  trace w2 = trace w ++ evs ->
  0 <= fd ->
  count_events (is_socket_of fd) evs = count_events (is_close_of fd) evs /\
  (count_events (is_socket_of fd) evs <= 1)%nat /\
  active (self w2) = false /\ cli_fd (self w2) = -1.
Proof.
  intros Ha w1 w2 Htr Hfd. subst w1 w2. unfold tcp_client_v2_destroy in *.
  rewrite disconnect_eq in *. cbn [snd self trace] in *.
  destruct (connect_outcome in_host in_port w)
    as (r & w' & evs' & Hrun & Htr' & Hcases).
  rewrite Hrun in *. cbn [fst snd] in *.
  rewrite Htr', <- app_assoc in Htr. apply app_inv_head in Htr. subst evs.
  unfold active in *. apply orb_false_iff in Ha as [Hc Hp].
  split; [|split; [|split; reflexivity]].
  - destruct Hcases as [(Hc' & _) | [(_ & _ & -> & ->) |
      [(_ & fd' & errno & Hneg & _ & Hcf & Hpf & Hcn & ->) |
       (_ & fd' & fl & addr & rc & e & Hpos & _ & Hsub)]]].
    + congruence.
    + cbn. rewrite Hp, Hc. reflexivity.
    + rewrite Hpf, Hcn, Hp. cbn. destruct (Z.eqb_spec fd' fd); [lia|reflexivity].
    + cbv zeta in Hsub.
      destruct Hsub as [(_ & _ & _ & Hcf & Hpf & Hcn & ->) |
        [(_ & _ & _ & Hcf & Hpf & Hcn & ->) | (_ & _ & Hcf & Hpf & Hcn & ->)]];
        rewrite Hpf, Hcn; unfold close_events; rewrite ?Hcf; cbn;
        try (destruct (Z.leb_spec 0 fd'); [|lia]); cbn;
        destruct (fd' =? fd); reflexivity.
  - destruct Hcases as [(Hc' & _) | [(_ & _ & -> & ->) |
      [(_ & fd' & errno & Hneg & _ & Hcf & Hpf & Hcn & ->) |
       (_ & fd' & fl & addr & rc & e & Hpos & _ & Hsub)]]].
    + congruence.
    + cbn. rewrite Hp, Hc. cbn. lia.
    + rewrite Hpf, Hcn, Hp. cbn. destruct (fd' =? fd); cbn; lia.
    + cbv zeta in Hsub.
      destruct Hsub as [(_ & _ & _ & Hcf & Hpf & Hcn & ->) |
        [(_ & _ & _ & Hcf & Hpf & Hcn & ->) | (_ & _ & Hcf & Hpf & Hcn & ->)]];
        rewrite count_events_app; cbn; destruct (fd' =? fd); cbn;
        rewrite Hpf, Hcn; unfold close_events; rewrite ?Hcf; cbn;
        try (destruct (0 <=? fd')); cbn; lia.
Qed.

(** *** Pairing of the zero-copy calls *)

Lemma reservations_neutral a :
  count_events is_ingress_event a = 0%nat ->
  forall b tl, reservations_committed b (a ++ tl) = reservations_committed b tl.
Proof.
  induction a as [|e a IH]; cbn; [reflexivity|].
  intros Hc b tl. destruct e; cbn in *; try discriminate; auto.
Qed.

Lemma close_events_plain c :
  count_events is_ingress_event (close_events c) = 0%nat /\
  count_events is_egress_event (close_events c) = 0%nat.
Proof. destruct (close_events_cases c) as [-> | ->]; cbn; auto. Qed.

Lemma loop_run_reservations c evs st :
  loop_run c evs st ->
  forall tl, reservations_committed false (evs ++ tl)
             = reservations_committed false tl.
Proof.
  induction 1; intros tl'; cbn; try reflexivity;
    try (apply (reservations_neutral (close_events c));
         apply close_events_plain).
  apply IHloop_run.
Qed.

Lemma loop_run_no_egress c evs st :
  loop_run c evs st -> count_events is_egress_event evs = 0%nat.
Proof.
  induction 1; cbn; try reflexivity; try assumption;
    apply close_events_plain.
Qed.

(** One service call splits into a read part without any call of the
    write side and a write part without any call of the read side; the
    write part is empty or is one peek, one [send] of the peeked bytes on
    the descriptor of the client and the release, followed by the consume
    of what was sent. *)
Lemma pollable_poll_split fuel (rset wset : fd_set) w :
  exists r w' rd wr,
    pollable_poll fuel rset wset w = (r, w') /\
    trace w' = trace w ++ rd ++ wr /\
    count_events is_egress_event rd = 0%nat /\
    count_events is_ingress_event wr = 0%nat /\
    reservations_committed false rd = true /\
    (wr = [] \/
     exists used data n errno post,
       wr = [EvPeek used data; EvSend (cli_fd (self w)) data n errno; EvPeekFree]
              ++ post /\
       ((0 < n /\ post = [EvConsume n]) \/
        (n <= 0 /\ count_events is_egress_event post = 0%nat))).
Proof.
  rewrite pollable_poll_unfold.
  destruct (pending_connect (self w)) eqn:Hp.
  { rewrite poll_pending_eq. cbv zeta.
    destruct (FD_ISSET (cli_fd (self w)) wset).
    2:{ exists (Some 0), w, [], []. rewrite app_nil_r. auto 10. }
    destruct (sys_getsockopt_so_error _ _) as [[rc e] s1].
    destruct ((rc <? 0) || negb (e =? 0));
      eexists _, _, _, []; (split; [reflexivity|]); cbn [trace];
      (split; [rewrite app_nil_r; reflexivity|]); cbn;
      try (destruct (close_events_cases (self w)) as [-> | ->]; cbn); auto 10. }
  destruct (connected (self w)) eqn:Hc; cbn [negb].
  2:{ exists (Some 0), w, [], []. rewrite app_nil_r. auto 10. }
  destruct (poll_read_run fuel rset w Hc)
    as (st & pre & run & w1 & Hrun & Htr & Hpre & _ & Hshape & Hself & _).
  rewrite Hrun.
  assert (Hrd : count_events is_egress_event (pre ++ run) = 0%nat).
  { rewrite count_events_app, (loop_run_no_egress _ _ _ Hshape).
    destruct Hpre as [-> | ->]; reflexivity. }
  assert (Hres : reservations_committed false (pre ++ run) = true).
  { rewrite <- (app_nil_r run).
    destruct Hpre as [-> | ->]; cbn;
      rewrite (loop_run_reservations _ _ _ Hshape); reflexivity. }
  destruct st; cbn [flow_of_stop].
  4-7: eexists _, w1, (pre ++ run), []; (split; [reflexivity|]);
       (split; [rewrite app_nil_r; exact Htr|]); auto 10.
  all: rewrite poll_write_eq; cbv zeta; rewrite Hself, Hc; cbn [andb];
    destruct (FD_ISSET (cli_fd (self w)) wset && negb (get_write_buffer_used (handler w1) =? 0));
    [|exists (Some 0), w1, (pre ++ run), []; (split; [reflexivity|]);
      (split; [rewrite app_nil_r; exact Htr|]); auto 10];
    destruct (zero_copy_peek_write_buffer_data _ _) as [buf h1];
    destruct (sys_send _ _ _) as [[n errno] s1];
    (destruct (Z.ltb_spec n 0); [destruct (retryable errno)|
       destruct (Z.eqb_spec n 0)]);
    eexists _, _, (pre ++ run), _; (split; [reflexivity|]); cbn [trace];
    (split; [rewrite Htr, <- !app_assoc; reflexivity|]);
    (split; [exact Hrd|]);
    (split; [cbn; try (destruct (close_events_cases (self w)) as [-> | ->]);
             reflexivity|]);
    (split; [exact Hres|]);
    right; eexists _, _, _, _, _; (split; [reflexivity|]);
    first [ left; split; [lia|reflexivity]
          | right; split; [lia|]; cbn;
            try (destruct (close_events_cases (self w)) as [-> | ->]);
            reflexivity ].
Qed.

Lemma reservations_committed_app a : forall o b,
  reservations_committed o a = true ->
  reservations_committed o (a ++ b) = reservations_committed false b.
Proof.
  induction a as [|e a IH]; intros o b Ha; cbn in *.
  - destruct o; [discriminate|reflexivity].
  - destruct e; auto;
      apply andb_true_iff in Ha as [Ho Ha]; rewrite Ho; cbn; auto.
Qed.

Lemma reservations_committed_count l : forall o,
  reservations_committed o l = true ->
  (count_events (fun e => match e with EvReserve _ _ => true | _ => false end) l
   + (if o then 1 else 0))%nat = count_events is_commit l.
Proof.
  induction l as [|x l IH]; intros o Ho; cbn in *.
  - destruct o; [discriminate|reflexivity].
  - destruct x; try (exact (IH o Ho));
      apply andb_true_iff in Ho as [Hopen Ho]; specialize (IH _ Ho);
      destruct o; try discriminate; cbn in *; lia.
Qed.

(** X10. A service call never leaves an ingress reservation open: in its
    events every reserve is followed by a commit (of the bytes received,
    or of zero bytes) before the next reserve and before the call ends,
    and there is no commit without a reservation.  This holds however the
    read loop ends and for every bound on its rounds. *)
Theorem reservations_always_committed fuel (rset wset : fd_set) w :
  exists evs,
    trace (snd (pollable_poll fuel rset wset w)) = trace w ++ evs /\
    reservations_committed false evs = true /\
    count_events (fun e => match e with EvReserve _ _ => true | _ => false end) evs
    = count_events is_commit evs.
Proof.
  destruct (pollable_poll_split fuel rset wset w)
    as (r & w' & rd & wr & -> & Htr & _ & Hwr & Hres & _).
  cbn [snd]. exists (rd ++ wr). split; [exact Htr|].
  assert (Hall : reservations_committed false (rd ++ wr) = true).
  { rewrite (reservations_committed_app _ _ _ Hres).
    rewrite <- (app_nil_r wr), (reservations_neutral wr Hwr). reflexivity. }
  split; [exact Hall|].
  pose proof (reservations_committed_count _ _ Hall) as Hc. cbn in Hc. lia.
Qed.

(** X11. A service call performs at most one [send].  The region it peeks
    is sent on the descriptor of the client and is released whatever
    [send] returns; the egress buffer is advanced only after a [send]
    that moved bytes, and by exactly the number of bytes it moved. *)
Theorem peeked_region_released fuel (rset wset : fd_set) w :
  exists evs,
    trace (snd (pollable_poll fuel rset wset w)) = trace w ++ evs /\
    (count_events is_egress_event evs = 0%nat \/
     exists pre used data n errno post,
       evs = pre ++ [EvPeek used data; EvSend (cli_fd (self w)) data n errno;
                     EvPeekFree] ++ post /\
       count_events is_egress_event pre = 0%nat /\
       ((0 < n /\ post = [EvConsume n]) \/
        (n <= 0 /\ count_events is_egress_event post = 0%nat))).
Proof.
  destruct (pollable_poll_split fuel rset wset w)
    as (r & w' & rd & wr & -> & Htr & Hrd & _ & _ & Hwr).
  cbn [snd]. exists (rd ++ wr). split; [exact Htr|].
  destruct Hwr as [-> | (used & data & n & errno & post & -> & Hpost)].
  - left. rewrite app_nil_r. exact Hrd.
  - right. exists rd, used, data, n, errno, post. auto.
Qed.

(** X12. Within one service call all work of the read side comes before
    all work of the write side: the events split into a first part with
    no peek, [send], release or consume and a second part with no
    buffer-full hint, reserve, [recv] or commit. *)
Theorem reads_before_writes fuel (rset wset : fd_set) w :
  exists rd wr,
    trace (snd (pollable_poll fuel rset wset w)) = trace w ++ rd ++ wr /\
    count_events is_egress_event rd = 0%nat /\
    count_events is_ingress_event wr = 0%nat.
Proof.
  destruct (pollable_poll_split fuel rset wset w)
    as (r & w' & rd & wr & -> & Htr & Hrd & Hwr & _).
  exists rd, wr. auto.
Qed.

(** X13. A service call that pushes a message to [buffer_error] pushes
    exactly one, closes the descriptor at most once and leaves the client
    disconnected: [get_connected] is false afterwards and the next
    [pollable_merge_set] registers nothing. *)
Theorem service_errors_force_disconnect fuel (rset wset rset' wset' : fd_set)
        (max_fd : Z) w evs m :
  trace (snd (pollable_poll fuel rset wset w)) = trace w ++ evs ->
  In (EvBufferError m) evs ->
  let w' := snd (pollable_poll fuel rset wset w) in
  self w' = disconnected (self w) /\
  count_events is_buffer_error evs = 1%nat /\
  (count_events is_close evs <= 1)%nat /\
  fst (get_connected w') = false /\
  pollable_merge_set max_fd rset' wset' w' = ((max_fd, rset', wset'), w').
Proof.
  intros Htr Hin w'. subst w'.
  destruct (pollable_poll_outcome fuel rset wset w)
    as (r & w' & evs' & Hrun & Htr' & Hcases).
  rewrite Hrun in *. cbn [snd] in *.
  rewrite Htr' in Htr. apply app_inv_head in Htr. subst evs'.
  pose proof (count_events_in is_buffer_error _ _ Hin eq_refl) as Hone.
  destruct Hcases as [(_ & Hb & _) | [(_ & _ & Hb & _) | (_ & Hself & Hb & Hcl)]];
    try lia.
  split; [exact Hself|]. split; [lia|]. split.
  { rewrite Hcl. destruct (close_events_cases (self w)) as [-> | ->]; cbn; lia. }
  assert (Ha : active (self w') = false) by (rewrite Hself; reflexivity).
  split; [|apply merge_set_inactive; exact Ha].
  unfold get_connected. unfold_monad. unfold active in Ha. rewrite Ha. reflexivity.
Qed.

(** *** [pollable_merge_set] among other pollables *)

Lemma merge_set_eq (m : Z) (rset wset : fd_set) w :
  let c := self w in
  let wr := pending_connect c
            || (connected c && negb (get_write_buffer_used (handler w) =? 0)) in
  let rd := negb (pending_connect c) && connected c in
  pollable_merge_set m rset wset w =
  ((if wr || rd then Z.max m (cli_fd c) else m,
    if rd then {[cli_fd c]} ∪ rset else rset,
    if wr then {[cli_fd c]} ∪ wset else wset), w).
Proof.
  unfold pollable_merge_set. unfold_monad.
  destruct (pending_connect (self w)); cbn.
  - destruct (Z.ltb_spec m (cli_fd (self w))); repeat f_equal; lia.
  - destruct (connected (self w)); cbn; [|reflexivity].
    destruct (get_write_buffer_used (handler w) =? 0); cbn;
      destruct (Z.ltb_spec m (cli_fd (self w))); repeat f_equal; lia.
Qed.

(** X14. [pollable_merge_set] keeps what the caller of [select] relies
    on: if every descriptor in the sets it is given is at most
    [in_max_fd], every descriptor in the sets it returns is at most the
    maximum it returns.  It never lowers the maximum, never removes a
    descriptor, and adds no descriptor but its own. *)
Theorem merge_set_keeps_select_bound (m : Z) (rset wset : fd_set) w :
  select_bound m rset wset ->
  let '(m', rset', wset', _) := pollable_merge_set m rset wset w in
  select_bound m' rset' wset' /\
  m <= m' /\
  rset ⊆ rset' /\ wset ⊆ wset' /\
  rset' ∪ wset' ⊆ {[cli_fd (self w)]} ∪ (rset ∪ wset).
Proof.
  intros Hb. rewrite merge_set_eq. cbv zeta. unfold select_bound in *.
  destruct (pending_connect (self w)
            || connected (self w) && negb (get_write_buffer_used (handler w) =? 0));
    destruct (negb (pending_connect (self w)) && connected (self w)); cbn.
  all: split;
    [ intros x Hx;
      first [ apply Hb in Hx; lia
            | assert (Hor : x = cli_fd (self w) \/ x ∈ rset ∪ wset)
                by (clear - Hx; set_unfold; tauto);
              destruct Hor as [E | Hin]; [lia | apply Hb in Hin; lia] ]
    | split; [lia | clear; set_unfold; tauto] ].
Qed.

(** X15. Two clients may be merged in either order: the maximum and the
    two sets that result are the same. *)
Theorem merge_set_commutes (m : Z) (rset wset : fd_set) (wa wb : world H W) :
  let '(m1, r1, s1, _) := pollable_merge_set m rset wset wa in
  let '(m2, r2, s2, _) := pollable_merge_set m1 r1 s1 wb in
  let '(n1, p1, q1, _) := pollable_merge_set m rset wset wb in
  let '(n2, p2, q2, _) := pollable_merge_set n1 p1 q1 wa in
  m2 = n2 /\ r2 = p2 /\ s2 = q2.
Proof.
  repeat (rewrite merge_set_eq; cbv beta iota zeta).
  destruct (pending_connect (self wa)
            || connected (self wa) && negb (get_write_buffer_used (handler wa) =? 0));
    destruct (negb (pending_connect (self wa)) && connected (self wa));
    destruct (pending_connect (self wb)
              || connected (self wb) && negb (get_write_buffer_used (handler wb) =? 0));
    destruct (negb (pending_connect (self wb)) && connected (self wb)); cbn;
    (split; [lia|]); split; set_unfold; tauto.
Qed.

(** X16. What [connect] does when it is called on a client that is still
    connecting and [socket] fails: it returns -1 but leaves
    [pending_connect] set while [cli_fd] holds the negative result of
    [socket], so [get_connected] still answers true although the client
    holds no valid descriptor; the only system calls made are
    [gethostbyname] and [socket], so the former descriptor is not
    closed. *)
Theorem connect_while_connecting_socket_failure in_host in_port w ent s1 fd errno s2 :
  pending_connect (self w) = true ->
  connected (self w) = false ->
  sys_gethostbyname in_host (sys w) = (Some ent, s1) ->
  sys_socket s1 = (fd, errno, s2) ->
  fd < 0 ->
  let '(r, w') := connect in_host in_port w in
  r = -1 /\
  pending_connect (self w') = true /\ cli_fd (self w') = fd /\
  fst (get_connected w') = true /\
  trace w' = trace w ++ [EvGethostbyname in_host true; EvSocket fd;
                         EvMsgError (msg_connect_failed in_host in_port errno)].
Proof.
  intros Hp Hc Hres Hsock Hfd.
  rewrite connect_eq. cbv zeta. rewrite Hc, Hres, Hsock.
  destruct (Z.ltb_spec fd 0); [|lia].
  rewrite Hp.
  repeat split; reflexivity.
Qed.

Lemma write_phase_no_ingress evs :
  forallb is_write_phase_event evs = true ->
  count_events is_ingress_event evs = 0%nat.
Proof.
  induction evs as [|e evs IH]; cbn; [reflexivity|].
  intros Hw. apply andb_true_iff in Hw as [He Hw].
  destruct e; cbn in *; try discriminate; auto.
Qed.

(** X17. Back-pressure: when the descriptor of a connected client is
    read-ready but the handler has no free ingress space, and the
    buffer-full hint does not make room, the service call emits that one
    hint and does not touch the socket for reading: no reserve, no [recv],
    no commit.  It still returns 0 after the write block. *)
Theorem full_buffer_suspends_reading fuel (rset wset : fd_set) w :
  pending_connect (self w) = false ->
  connected (self w) = true ->
  FD_ISSET (cli_fd (self w)) rset = true ->
  get_read_buffer_available (handler w) = 0 ->
  get_read_buffer_available (trigger_read_callback 0 (handler w)) <= 0 ->
  (0 < fuel)%nat ->
  exists wr,
    fst (pollable_poll fuel rset wset w) = Some 0 /\
    trace (snd (pollable_poll fuel rset wset w))
      = trace w ++ EvTriggerReadCallback :: wr /\
    count_events is_ingress_event wr = 0%nat.
Proof.
  intros Hp Hc Hset Hfull Hstill Hfuel.
  destruct fuel as [|fuel]; [lia|].
  rewrite pollable_poll_unfold, Hp, Hc. cbn [negb].
  unfold poll_read. unfold_monad. rewrite Hset, Hfull. cbn [Z.eqb].
  cbn [read_loop]. unfold_monad. cbn [self handler]. rewrite Hc.
  destruct (Z.ltb_spec 0 (get_read_buffer_available
                            (trigger_read_callback 0 (handler w)))); [lia|].
  cbn [andb].
  match goal with |- context [poll_write wset ?w1] =>
    destruct (poll_write_run w1 wset) as (wr & w2 & Hw & Htr & Hwr & _) end.
  rewrite Hw. cbn [fst snd]. exists wr.
  split; [reflexivity|]. split.
  - rewrite Htr. cbn [trace]. rewrite <- app_assoc. reflexivity.
  - apply write_phase_no_ingress. exact Hwr.
Qed.

(** X19. [connect] on a connected client is refused without a system
    call: it returns -1 and changes nothing but the trace, which gains the
    error message.  After [disconnect] the same call is no longer
    refused: it starts by resolving the host name. *)
Theorem disconnect_reenables_connect in_host in_port w :
  connected (self w) = true ->
  connect in_host in_port w
  = (-1, World (self w) (handler w) (sys w)
               (trace w ++ [EvMsgError (msg_already_connected in_host in_port (self w))])) /\
  let w1 := snd (disconnect w) in
  exists found tl,
    trace (snd (connect in_host in_port w1))
    = trace w1 ++ EvGethostbyname in_host found :: tl.
Proof.
  intros Hc. split.
  - rewrite connect_eq. cbv zeta. rewrite Hc. reflexivity.
  - intros w1. subst w1. rewrite disconnect_eq. cbn [snd].
    destruct (connect_outcome in_host in_port
                (World (disconnected (self w)) (handler w)
                   (if (pending_connect (self w) || connected (self w))
                       && (0 <=? cli_fd (self w))
                    then sys_close (cli_fd (self w)) (sys w) else sys w)
                   (trace w ++ (if pending_connect (self w) || connected (self w)
                                then close_events (self w) else []))))
      as (r & w' & evs & -> & Htr & Hcases).
    cbn [snd]. rewrite Htr.
    destruct Hcases as [(Hc' & _) | [(_ & _ & _ & ->) |
      [(_ & fd & errno & _ & _ & _ & _ & _ & ->) |
       (_ & fd & fl & addr & rc & e & _ & _ & Hsub)]]].
    + cbn in Hc'. discriminate.
    + eexists _, _. reflexivity.
    + eexists _, _. reflexivity.
    + cbv zeta in Hsub.
      destruct Hsub as [(_ & _ & _ & _ & _ & _ & ->) |
        [(_ & _ & _ & _ & _ & _ & ->) | (_ & _ & _ & _ & _ & ->)]];
        eexists _, _; reflexivity.
Qed.

Lemma only_descriptor_app fd a b :
  only_descriptor fd (a ++ b) = only_descriptor fd a && only_descriptor fd b.
Proof. apply forallb_app. Qed.

Lemma close_events_own c : only_descriptor (cli_fd c) (close_events c) = true.
Proof.
  destruct (close_events_cases c) as [-> | ->]; cbn; [reflexivity|].
  rewrite Z.eqb_refl. reflexivity.
Qed.

Lemma loop_run_own c evs st :
  loop_run c evs st -> only_descriptor (cli_fd c) evs = true.
Proof.
  induction 1; cbn; rewrite ?Z.eqb_refl; cbn; try reflexivity;
    try apply close_events_own.
  exact IHloop_run.
Qed.

(** X20. A service call makes system calls on no descriptor but the one
    the client holds when the call starts: every [getsockopt], [recv],
    [send] and [close] of the call names [cli_fd]. *)
Theorem service_uses_own_descriptor fuel (rset wset : fd_set) w :
  exists evs,
    trace (snd (pollable_poll fuel rset wset w)) = trace w ++ evs /\
    only_descriptor (cli_fd (self w)) evs = true.
Proof.
  rewrite pollable_poll_unfold.
  destruct (pending_connect (self w)) eqn:Hp.
  { rewrite poll_pending_eq. cbv zeta.
    destruct (FD_ISSET (cli_fd (self w)) wset).
    2:{ exists []. rewrite app_nil_r. auto. }
    destruct (sys_getsockopt_so_error _ _) as [[rc e] s1].
    destruct ((rc <? 0) || negb (e =? 0));
      eexists; cbn [snd trace]; (split; [reflexivity|]);
      rewrite ?only_descriptor_app, ?close_events_own; cbn;
      rewrite Z.eqb_refl; reflexivity. }
  destruct (connected (self w)) eqn:Hc; cbn [negb].
  2:{ exists []. rewrite app_nil_r. auto. }
  destruct (poll_read_run fuel rset w Hc)
    as (st & pre & run & w1 & Hrun & Htr & Hpre & _ & Hshape & Hself & _).
  rewrite Hrun.
  assert (Hrd : only_descriptor (cli_fd (self w)) (pre ++ run) = true).
  { rewrite only_descriptor_app, (loop_run_own _ _ _ Hshape).
    destruct Hpre as [-> | ->]; reflexivity. }
  destruct st; cbn [flow_of_stop snd].
  4-7: exists (pre ++ run); split; [exact Htr|exact Hrd].
  all: rewrite poll_write_eq; cbv zeta; rewrite Hself;
    destruct (_ && _ && _);
    [|exists (pre ++ run); split; [exact Htr|exact Hrd]];
    destruct (zero_copy_peek_write_buffer_data _ _) as [buf h1];
    destruct (sys_send _ _ _) as [[n errno] s1];
    (destruct (n <? 0); [destruct (retryable errno)|destruct (n =? 0)]);
    cbn [snd trace]; rewrite Htr; eexists;
    (split; [rewrite <- !app_assoc; reflexivity|]);
    rewrite only_descriptor_app in Hrd; apply andb_true_iff in Hrd as [Hp1 Hp2];
    rewrite !only_descriptor_app, ?close_events_own, Hp1, Hp2; cbn;
    rewrite Z.eqb_refl; reflexivity.
Qed.

End ClientInvariants.

Section RingConservation.
Context {W : Type} `{OS : Sockets W}.

Implicit Types (w : world ring W).

(** X18. On the ring no egress byte is lost or sent twice by a service
    call, whatever the state of the client and whatever the socket layer
    answers: the bytes that have left through [send] followed by the
    bytes still pending are the same before and after the call. *)
Theorem egress_conserved fuel (rset wset : fd_set) w :
  let w' := snd (pollable_poll fuel rset wset w) in
  transmitted (trace w') ++ egress (handler w')
  = transmitted (trace w) ++ egress (handler w).
Proof.
  intros w'. subst w'. rewrite pollable_poll_unfold.
  destruct (pending_connect (self w)).
  { rewrite poll_pending_eq. cbv zeta.
    destruct (FD_ISSET _ _); [|reflexivity].
    destruct (sys_getsockopt_so_error _ _) as [[rc e] s1].
    destruct (_ || _); cbn [snd trace handler]; rewrite transmitted_app; cbn;
      try (destruct (close_events_cases (self w)) as [-> | ->]; cbn);
      rewrite app_nil_r; reflexivity. }
  destruct (connected (self w)) eqn:Hc; [|reflexivity]. cbn [negb].
  destruct (poll_read_run fuel rset w Hc)
    as (st & pre & run & w1 & Hrun & Htr & Hpre & _ & Hshape & Hself & _ & _ & Hfr).
  specialize (Hfr _ egress ring_egress_frame).
  rewrite Hrun.
  assert (Hrd : transmitted (trace w1) ++ egress (handler w1)
                = transmitted (trace w) ++ egress (handler w)).
  { rewrite Htr, !transmitted_app, Hfr.
    destruct (loop_run_no_write _ _ _ Hshape) as (-> & _).
    destruct Hpre as [-> | ->]; cbn; rewrite app_nil_r; reflexivity. }
  destruct st; cbn [flow_of_stop snd]; try exact Hrd.
  all: rewrite poll_write_eq; cbv zeta;
    destruct (_ && _ && _); [|exact Hrd];
    cbn [get_write_buffer_used zero_copy_peek_write_buffer_data
         peek_free_write_buffer_data consume_write_buffer_data buffer_error
         ring_handler];
    rewrite Nat2Z.id, firstn_all;
    destruct (sys_send _ _ _) as [[n errno] s1];
    (destruct (Z.ltb_spec n 0); [destruct (retryable errno)|
       destruct (Z.eqb_spec n 0)]);
    cbn [snd trace handler]; rewrite !transmitted_app; cbn;
    try (destruct (close_events_cases (self w1)) as [-> | ->]; cbn);
    repeat match goal with
      | |- context [0 <? ?x] => destruct (Z.ltb_spec 0 x); try lia
      end;
    rewrite ?app_nil_r, <- ?app_assoc, ?take_drop; exact Hrd || (rewrite <- Hrd; reflexivity).
Qed.

(** X21. On the ring, with a [recv] that returns no more than it was
    asked for and a bound on the loop rounds above the free ingress space,
    a service call runs to its end and returns 0, and the used ingress
    bytes have grown by exactly the sum of the positive results of
    [recv]: every chunk received was accepted by the ring. *)
Theorem ring_service_call_completes fuel (rset wset : fd_set) w :
  recv_within_request (W := W) ->
  Z.max 0 (ring_free (handler w)) < Z.of_nat fuel ->
  fst (pollable_poll fuel rset wset w) = Some 0 /\
  exists evs,
    trace (snd (pollable_poll fuel rset wset w)) = trace w ++ evs /\
    ingress_used (handler (snd (pollable_poll fuel rset wset w)))
    = ingress_used (handler w) + positive_recv_total evs /\
    ingress_capacity (handler (snd (pollable_poll fuel rset wset w)))
    = ingress_capacity (handler w).
Proof.
  intros Hrecv Hfuel.
  split; [apply ring_poll_returns; exact Hfuel|].
  destruct (ring_ingress_growth fuel rset wset w Hrecv) as (evs & Htr & Hused).
  exists evs. split; [exact Htr|]. split; [exact Hused|].
  rewrite pollable_poll_unfold.
  destruct (pending_connect (self w)).
  { rewrite poll_pending_eq. cbv zeta.
    destruct (FD_ISSET _ _); [|reflexivity].
    destruct (sys_getsockopt_so_error _ _) as [[rc e] s1].
    destruct (_ || _); reflexivity. }
  destruct (connected (self w)) eqn:Hc; [|reflexivity]. cbn [negb].
  destruct (poll_read_run fuel rset w Hc)
    as (st & pre & run & w1 & Hrun & _ & _ & _ & _ & _ & _ & _ & Hfr).
  assert (Hframe : ingress_frame (H := ring) ingress_capacity).
  { repeat split; cbn; intros; try reflexivity.
    unfold ring_commit. destruct ((0 <=? n) && (n <=? ring_free h)); reflexivity. }
  specialize (Hfr _ ingress_capacity Hframe).
  rewrite Hrun.
  destruct st; cbn [flow_of_stop snd]; try exact Hfr.
  all: rewrite poll_write_eq; cbv zeta;
    destruct (_ && _ && _); [|exact Hfr];
    cbn [get_write_buffer_used zero_copy_peek_write_buffer_data
         peek_free_write_buffer_data consume_write_buffer_data buffer_error
         ring_handler];
    destruct (sys_send _ _ _) as [[n errno] s1];
    (destruct (n <? 0); [destruct (retryable errno)|destruct (n =? 0)]);
    exact Hfr.
Qed.

End RingConservation.

(** * Concrete runs of the further properties *)

(** X2, on a client fresh from its constructor. *)
Lemma inactive_client_is_inert_witness :
  let w := closed_world [] in
  fst (get_connected w) = false /\
  pollable_merge_set 7 {[1]} {[2]} w = ((7, {[1]}, {[2]}), w) /\
  pollable_poll 3 {[1]} {[2]} w = (Some 0, w).
Proof.
  intros w.
  assert (Hg : fst (get_connected w) = false) by reflexivity.
  split; [exact Hg|].
  pose proof (inactive_client_is_inert 3 7 {[1]} {[2]} w) as P.
  cbv zeta in P.
  specialize (P Hg).
  exact P.
Defined.

(** X3, on a connected client with pending egress whose descriptor is in
    neither set. *)
Lemma unready_descriptor_no_op_witness :
  let w := connected_world (Ring 9000 0 three_bytes [] 0) [(2, 0)] in
  (FD_ISSET (cli_fd (self w)) {[1]} = false /\
   FD_ISSET (cli_fd (self w)) {[2]} = false) /\
  pollable_poll 3 {[1]} {[2]} w = (Some 0, w).
Proof.
  intros w.
  assert (Hr : FD_ISSET (cli_fd (self w)) {[1]} = false) by (vm_compute; reflexivity).
  assert (Hw : FD_ISSET (cli_fd (self w)) {[2]} = false) by (vm_compute; reflexivity).
  split; [split; assumption|].
  pose proof (unready_descriptor_no_op 3 {[1]} {[2]} w) as P.
  cbv zeta in P.
  specialize (P Hr Hw).
  exact P.
Defined.

(** X4, on a connecting client. *)
Lemma flags_stay_exclusive_witness :
  let w := connecting_world [(0, 0); (6, 0); (0, 0)] in
  flags_exclusive (self w) /\
  flags_exclusive tcp_client_v2_new /\
  flags_exclusive (self (snd (connect "gps-b" 10110 w))) /\
  flags_exclusive (self (snd (pollable_poll 3 {[5]} {[5]} w))) /\
  flags_exclusive (self (snd (disconnect w))).
Proof.
  intros w.
  assert (Hx : flags_exclusive (self w)) by reflexivity.
  split; [exact Hx|].
  pose proof (flags_stay_exclusive 3 {[5]} {[5]} "gps-b" 10110 w) as P.
  cbv zeta in P.
  specialize (P Hx).
  exact P.
Defined.

(** X5, on a connected client whose peer closes. *)
Lemma descriptor_stays_matched_witness :
  let w := connected_world ring0 [(0, 0)] in
  descriptor_matches_state (self w) /\
  descriptor_matches_state tcp_client_v2_new /\
  descriptor_matches_state (self (snd (pollable_poll 3 {[5]} {[5]} w))) /\
  descriptor_matches_state (self (snd (disconnect w))).
Proof.
  intros w.
  assert (Hm : descriptor_matches_state (self w)) by reflexivity.
  split; [exact Hm|].
  pose proof (descriptor_stays_matched 3 {[5]} {[5]} w) as P.
  cbv zeta in P.
  specialize (P Hm).
  exact P.
Defined.

(** X6, on a closed client whose connect is in progress at once. *)
Lemma connect_result_matches_state_witness :
  let w := closed_world [(0, 0); (6, 0); (-1, EINPROGRESS)] in
  (active (self w) = false /\ cli_fd (self w) < 0) /\
  let '(r, w') := connect "gps-a" 2947 w in
  ((r = 0 /\ 0 <= cli_fd (self w')) \/ (r = -1 /\ cli_fd (self w') < 0)) /\
  fst (get_connected w') = (r =? 0) /\
  descriptor_matches_state (self w').
Proof.
  intros w.
  assert (Hfd : cli_fd (self w) < 0) by (vm_compute; reflexivity).
  assert (Ha : active (self w) = false) by reflexivity.
  split; [split; [exact Ha|exact Hfd]|].
  pose proof (connect_result_matches_state "gps-a" 2947 w) as P.
  cbv zeta in P.
  specialize (P Ha Hfd).
  exact P.
Defined.

(** X7, on a connect that is refused by the peer (errno 111). *)
Lemma connect_socket_not_leaked_witness :
  let w := closed_world [(0, 0); (6, 0); (-1, 111)] in
  let evs := trace (snd (connect "gps-a" 2947 w)) in
  let c' := self (snd (connect "gps-a" 2947 w)) in
  (trace (snd (connect "gps-a" 2947 w)) = trace w ++ evs /\
   In (EvSocket 6) evs /\ 0 <= 6) /\
  ((cli_fd c' = 6 /\ active c' = true /\ fst (connect "gps-a" 2947 w) = 0) \/
   (In (EvClose 6) evs /\ active c' = false /\ fst (connect "gps-a" 2947 w) = -1)).
Proof.
  intros w evs c'.
  assert (Htr : trace (snd (connect "gps-a" 2947 w)) = trace w ++ evs) by reflexivity.
  assert (Hin : In (EvSocket 6) evs) by (vm_compute; right; left; reflexivity).
  assert (Hfd : 0 <= 6) by lia.
  split; [split; [exact Htr|split; [exact Hin|exact Hfd]]|].
  pose proof (connect_socket_not_leaked "gps-a" 2947 w evs 6) as P.
  cbv zeta in P.
  specialize (P Htr Hin Hfd).
  exact P.
Defined.

(** X8, on a connect that completes at once. *)
Lemma connect_sets_nonblocking_first_witness :
  let w := closed_world [(0, 0); (6, 0); (0, 0)] in
  let evs := trace (snd (connect "gps-a" 2947 w)) in
  let addr := SockaddrIn 2 [Byte.x7f; Byte.x00; Byte.x00; Byte.x01] (htons 2947) in
  (trace (snd (connect "gps-a" 2947 w)) = trace w ++ evs /\
   In (EvConnect 6 addr 0 0) evs) /\
  exists flags post,
    evs = [EvGethostbyname "gps-a" true; EvSocket 6; EvFcntlGetfl 6;
           EvFcntlSetfl 6 flags; EvConnect 6 addr 0 0] ++ post /\
    Z.land flags O_NONBLOCK = O_NONBLOCK /\
    0 <= 6 /\
    sin_port addr = htons 2947.
Proof.
  intros w evs addr.
  assert (Htr : trace (snd (connect "gps-a" 2947 w)) = trace w ++ evs) by reflexivity.
  assert (Hin : In (EvConnect 6 addr 0 0) evs)
    by (vm_compute; do 4 right; left; reflexivity).
  split; [split; [exact Htr|exact Hin]|].
  pose proof (connect_sets_nonblocking_first "gps-a" 2947 w evs 6 addr 0 0) as P.
  cbv zeta in P.
  specialize (P Htr Hin).
  exact P.
Defined.

(** X9, on a connect left in progress when the client is destroyed. *)
Lemma connect_destroy_balanced_witness :
  let w := closed_world [(0, 0); (6, 0); (-1, EINPROGRESS)] in
  let w1 := snd (connect "gps-a" 2947 w) in
  let w2 := snd (tcp_client_v2_destroy w1) in
  let evs := trace w2 in
  (active (self w) = false /\ trace w2 = trace w ++ evs /\ 0 <= 6) /\
  count_events (is_socket_of 6) evs = count_events (is_close_of 6) evs /\
  (count_events (is_socket_of 6) evs <= 1)%nat /\
  active (self w2) = false /\ cli_fd (self w2) = -1.
Proof.
  intros w w1 w2 evs.
  assert (Htr : trace w2 = trace w ++ evs) by reflexivity.
  assert (Hfd : 0 <= 6) by lia.
  assert (Ha : active (self w) = false) by reflexivity.
  split; [split; [exact Ha|split; [exact Htr|exact Hfd]]|].
  pose proof (connect_destroy_balanced "gps-a" 2947 w evs 6) as P.
  cbv zeta in P.
  specialize (P Ha Htr Hfd).
  exact P.
Defined.

(** X13, on a connected client whose peer has closed. *)
Lemma service_errors_force_disconnect_witness :
  let w := connected_world ring0 [(0, 0)] in
  let w' := snd (pollable_poll 3 {[5]} {[5]} w) in
  let evs := trace w' in
  let m := msg_read_closed (self w) in
  (trace w' = trace w ++ evs /\ In (EvBufferError m) evs) /\
  self w' = disconnected (self w) /\
  count_events is_buffer_error evs = 1%nat /\
  (count_events is_close evs <= 1)%nat /\
  fst (get_connected w') = false /\
  pollable_merge_set 7 {[1]} {[2]} w' = ((7, {[1]}, {[2]}), w').
Proof.
  intros w w' evs m.
  assert (Htr : trace w' = trace w ++ evs) by reflexivity.
  assert (Hin : In (EvBufferError m) evs)
    by (vm_compute; do 3 right; left; reflexivity).
  split; [split; [exact Htr|exact Hin]|].
  pose proof (service_errors_force_disconnect 3 {[5]} {[5]} {[1]} {[2]} 7 w evs m) as P.
  cbv zeta in P.
  specialize (P Htr Hin).
  exact P.
Defined.

(** X14, on a connected client with pending egress merged after the
    descriptors 1 and 2. *)
Lemma merge_set_keeps_select_bound_witness :
  let w := connected_world (Ring 9000 0 three_bytes [] 0) [] in
  select_bound 3 {[1]} {[2]} /\
  let '(m', rset', wset', _) := pollable_merge_set 3 {[1]} {[2]} w in
  select_bound m' rset' wset' /\
  3 <= m' /\
  ({[1]} : fd_set) ⊆ rset' /\ ({[2]} : fd_set) ⊆ wset' /\
  rset' ∪ wset' ⊆ {[cli_fd (self w)]} ∪ ({[1]} ∪ {[2]}).
Proof.
  intros w.
  assert (Hb : select_bound 3 {[1]} {[2]}).
  { intros fd Hfd. apply elem_of_union in Hfd as [Hfd|Hfd];
      apply elem_of_singleton in Hfd; subst; lia. }
  split; [exact Hb|].
  pose proof (merge_set_keeps_select_bound 3 {[1]} {[2]} w) as P.
  cbv zeta in P.
  specialize (P Hb).
  exact P.
Defined.

(** X16, on a connecting client whose second [connect] finds no socket
    (errno 24). *)
Lemma connect_while_connecting_socket_failure_witness :
  let w := connecting_world [(0, 0); (-1, 24)] in
  (pending_connect (self w) = true /\ connected (self w) = false /\
   sys_gethostbyname "gps-b" (sys w) = (Some loopback_ent, [(-1, 24)]) /\
   sys_socket [(-1, 24)] = (-1, 24, ([] : script)) /\ -1 < 0) /\
  let '(r, w') := connect "gps-b" 10110 w in
  r = -1 /\
  pending_connect (self w') = true /\ cli_fd (self w') = -1 /\
  fst (get_connected w') = true /\
  trace w' = trace w ++ [EvGethostbyname "gps-b" true; EvSocket (-1);
                         EvMsgError (msg_connect_failed "gps-b" 10110 24)].
Proof.
  intros w.
  assert (Hneg : -1 < 0) by lia.
  assert (Hp : pending_connect (self w) = true) by reflexivity.
  assert (Hc : connected (self w) = false) by reflexivity.
  assert (Hres : sys_gethostbyname "gps-b" (sys w) = (Some loopback_ent, [(-1, 24)]))
    by reflexivity.
  assert (Hsock : sys_socket [(-1, 24)] = (-1, 24, ([] : script))) by reflexivity.
  split; [split; [exact Hp|split; [exact Hc|split; [exact Hres|
            split; [exact Hsock|exact Hneg]]]]|].
  pose proof (connect_while_connecting_socket_failure "gps-b" 10110 w loopback_ent [(-1, 24)] (-1) 24 []) as P.
  cbv zeta in P.
  specialize (P Hp Hc Hres Hsock Hneg).
  exact P.
Defined.

(** X17, on a ring of three bytes that is full. *)
Lemma full_buffer_suspends_reading_witness :
  let w := connected_world (Ring 3 3 [] [] 0) [(2, 0)] in
  (pending_connect (self w) = false /\ connected (self w) = true /\
   FD_ISSET (cli_fd (self w)) {[5]} = true /\
   get_read_buffer_available (handler w) = 0 /\
   get_read_buffer_available (trigger_read_callback 0 (handler w)) <= 0 /\
   (0 < 3)%nat) /\
  exists wr,
    fst (pollable_poll 3 {[5]} {[5]} w) = Some 0 /\
    trace (snd (pollable_poll 3 {[5]} {[5]} w))
      = trace w ++ EvTriggerReadCallback :: wr /\
    count_events is_ingress_event wr = 0%nat.
Proof.
  intros w.
  assert (Hset : FD_ISSET (cli_fd (self w)) {[5]} = true) by (vm_compute; reflexivity).
  assert (Hstill : get_read_buffer_available (trigger_read_callback 0 (handler w)) <= 0)
    by (vm_compute; discriminate).
  assert (Hfuel : (0 < 3)%nat) by lia.
  assert (Hp : pending_connect (self w) = false) by reflexivity.
  assert (Hc : connected (self w) = true) by reflexivity.
  assert (Hfull : get_read_buffer_available (handler w) = 0) by reflexivity.
  split; [split; [exact Hp|split; [exact Hc|split; [exact Hset|
            split; [exact Hfull|split; [exact Hstill|exact Hfuel]]]]]|].
  pose proof (full_buffer_suspends_reading 3 {[5]} {[5]} w) as P.
  cbv zeta in P.
  specialize (P Hp Hc Hset Hfull Hstill Hfuel).
  exact P.
Defined.

(** X19, on a connected client. *)
Lemma disconnect_reenables_connect_witness :
  let w := connected_world ring0 [(0, 0); (6, 0); (0, 0)] in
  connected (self w) = true /\
  connect "gps-b" 10110 w
  = (-1, World (self w) (handler w) (sys w)
               (trace w ++ [EvMsgError (msg_already_connected "gps-b" 10110 (self w))])) /\
  let w1 := snd (disconnect w) in
  exists found tl,
    trace (snd (connect "gps-b" 10110 w1))
    = trace w1 ++ EvGethostbyname "gps-b" found :: tl.
Proof.
  intros w.
  assert (Hc : connected (self w) = true) by reflexivity.
  split; [exact Hc|].
  pose proof (disconnect_reenables_connect "gps-b" 10110 w) as P.
  cbv zeta in P.
  specialize (P Hc).
  exact P.
Defined.

(** X21, on a ring of eight free bytes and two chunks of five bytes. *)
Lemma ring_service_call_completes_witness :
  let w := connected_world (Ring 8 0 [] [] 0) [(5, 0); (5, 0)] in
  (recv_within_request (W := script) /\
   Z.max 0 (ring_free (handler w)) < Z.of_nat 9) /\
  fst (pollable_poll 9 {[5]} {[5]} w) = Some 0 /\
  exists evs,
    trace (snd (pollable_poll 9 {[5]} {[5]} w)) = trace w ++ evs /\
    ingress_used (handler (snd (pollable_poll 9 {[5]} {[5]} w)))
    = ingress_used (handler w) + positive_recv_total evs /\
    ingress_capacity (handler (snd (pollable_poll 9 {[5]} {[5]} w)))
    = ingress_capacity (handler w).
Proof.
  intros w.
  assert (Hfuel : Z.max 0 (ring_free (handler w)) < Z.of_nat 9)
    by (vm_compute; reflexivity).
  split; [split; [exact script_recv_within_request|exact Hfuel]|].
  pose proof (ring_service_call_completes 9 {[5]} {[5]} w) as P.
  cbv zeta in P.
  specialize (P script_recv_within_request Hfuel).
  exact P.
Defined.
